(** * mage_ai/server/app.py: the traced worker thread and its supervisor

    A shallow embedding of [ThreadWithTrace], [launch] and [kill] from
    [mage_ai/server/app.py], together with the part of the Python run time
    they rely on: [sys.settrace] dispatch, exception classes, thread start,
    [threading.Thread.run], join and liveness. *)

From Stdlib Require Import ZArith String Lia.
From stdpp Require Import base option list strings gmap.

Local Open Scope string_scope.

(** ** Python values the module handles *)

(** The exception classes that occur: [SystemExit] derives from
    [BaseException] and not from [Exception]; [RuntimeError] is what
    [threading] raises for a misuse of [start] and [join];
    [AttributeError] is raised for an attribute or method that does not
    exist; [KeyError] stands for the errors of the traced code. *)
Inductive exn_class :=
| BaseException | Exception | SystemExit | RuntimeError
| AttributeError | KeyError.

Definition issubclass (c d : exn_class) : bool :=
  match d, c with
  | BaseException, _ => true
  | Exception, (Exception | RuntimeError | AttributeError | KeyError) => true
  | SystemExit, SystemExit => true
  | RuntimeError, RuntimeError => true
  | AttributeError, AttributeError => true
  | KeyError, KeyError => true
  | _, _ => false
  end.

(** The outcome of a Python call: a returned value or a raised exception. *)
Inductive pyresult (A : Type) :=
| Return (a : A)
| Raise (e : exn_class).
Arguments Return {A} a.
Arguments Raise {A} e.

(** What [launch] and [kill] hand back: [None], a boolean, or a reference to
    a thread object. *)
Inductive pyval := PyNone | PyBool (b : bool) | PyRef (r : nat).

(** The keyword arguments [launch] builds for [app.run]. *)
Record Config := { port : Z; host : string; debug : bool }.

(** ** The traced code

    What the interpreter reports while the target runs, called with the
    keyword arguments: at each position one trace event (['call'],
    ['line'], ['return'], ['exception'], ...), together with the [except]
    clauses that enclose that position, innermost first.  A handler names
    the class it catches, the position at which its body starts and the
    number of frames unwound to reach it. *)
Record handler := { catches : exn_class; resume : nat; unwind : nat }.
Record instr := { event : string; handlers : list handler }.

(** What the target does at a position: it goes through an instruction, it
    returns, or an exception of its own leaves it. *)
Inductive point :=
| Emits (i : instr)
| Returns
| Raises (e : exn_class).

Definition program := nat -> point.
Definition callable := Config -> program.

(** The bound methods that serve as trace functions. *)
Inductive tracefn := Globaltrace | Localtrace.

(** How a thread stands: not yet started, executing, ended by the return of
    [run], or ended by an exception that left [run]. *)
Inductive life := Unstarted | Live | Returned | Exited (e : exn_class).

(** The methods the attribute [run] can hold: [threading.Thread.run] or
    [ThreadWithTrace.__run]. *)
Inductive run_method := ThreadRun | TracedRun.

(** Where the thread is inside [threading.Thread.run], the method that
    [__run] calls as [self.__run_backup()]:
<<
    def run(self):
        try:
            if self._target is not None:
                self._target( *self._args, **self._kwargs)
        finally:
            del self._target, self._args, self._kwargs
>>
    about to enter it, at the line [try:], at the line [if], at the line of
    the call, or inside the target. *)
Inductive stage := Enter | AtTry | AtIf | AtCall | InTarget.

(** A line of [threading.Thread.run] itself: no [except] clause encloses
    it. *)
Definition own_line : instr := {| event := "line"; handlers := [] |}.

Module ThreadWithTrace.

(** The thread object: the attributes of [threading.Thread] that the
    module touches ([_target] and [_kwargs] are [None] once [run] has
    deleted them), [killed], and the state of its execution context
    ([sys.settrace] value of the thread, [f_trace] of each active frame
    innermost first, place inside [run], position in the target). *)
Record t := mk {
  target : option callable;
  kwargs : option Config;
  daemon : bool;
  killed : bool;
  run : run_method;
  run_backup : option run_method;
  status : life;
  stage_of : stage;
  tracefunc : option tracefn;
  frames : list (option tracefn);
  pc : nat
}.

(** [__init__]: [threading.Thread.__init__] then [self.killed = False]. *)
Definition init (tgt : callable) (kw : Config) (dmn : bool) : t :=
  {| target := Some tgt; kwargs := Some kw; daemon := dmn;
     killed := false;
     run := ThreadRun; run_backup := None;
     status := Unstarted; stage_of := Enter;
     tracefunc := None; frames := []; pc := 0 |}.

(** [globaltrace(self, frame, event, arg)]. *)
Definition globaltrace (self : t) (ev : string) : pyresult (option tracefn) :=
  if String.eqb ev "call" then Return (Some Localtrace)
  else Return None.

(** [localtrace(self, frame, event, arg)]. *)
Definition localtrace (self : t) (ev : string) : pyresult (option tracefn) :=
  if killed self then
    if String.eqb ev "line" then Raise SystemExit
    else Return (Some Localtrace)
  else Return (Some Localtrace).

(** [kill(self)]: [self.killed = True]. *)
Definition kill (self : t) : t :=
  {| target := target self; kwargs := kwargs self; daemon := daemon self;
     killed := true;
     run := run self; run_backup := run_backup self;
     status := status self; stage_of := stage_of self;
     tracefunc := tracefunc self;
     frames := frames self; pc := pc self |}.

Definition started (self : t) : bool :=
  match status self with Unstarted => false | _ => true end.

(** [threading.Thread.is_alive]. *)
Definition is_alive (self : t) : bool :=
  match status self with Live => true | _ => false end.

(** [start(self)]: saves [run], installs [__run], then
    [threading.Thread.start], which raises [RuntimeError] on a thread that
    was started before and otherwise creates the execution context and
    returns at once.  The context is taken from the point where [__run]
    has executed [sys.settrace(self.globaltrace)] and is about to call
    [self.__run_backup()]: the frame of [__run] itself existed before and
    has no local trace function. *)
Definition start (self : t) : t * pyresult unit :=
  let self1 :=
    {| target := target self; kwargs := kwargs self; daemon := daemon self;
       killed := killed self;
       run := TracedRun; run_backup := Some (run self);
       status := status self; stage_of := stage_of self;
       tracefunc := tracefunc self;
       frames := frames self; pc := pc self |} in
  if started self1 then (self1, Raise RuntimeError)
  else
    ({| target := target self1; kwargs := kwargs self1;
        daemon := daemon self1; killed := killed self1;
        run := run self1; run_backup := run_backup self1;
        status := Live; stage_of := Enter;
        tracefunc := Some Globaltrace;
        frames := [None]; pc := 0 |}, Return tt).

(** Calling a trace function of [self]. *)
Definition call_trace (self : t) (f : tracefn) (ev : string)
  : pyresult (option tracefn) :=
  match f with
  | Globaltrace => globaltrace self ev
  | Localtrace => localtrace self ev
  end.

(** [sys.settrace] dispatch for one event: a ['call'] goes to the trace
    function of the thread and its result becomes the local trace function
    of the new frame; every other event goes to the local trace function of
    the current frame, whose result replaces it; ['return'] drops the
    frame.  Nothing is called once the trace function of the thread is
    unset. *)
Definition dispatch (self : t) (ev : string)
  : pyresult (list (option tracefn)) :=
  if String.eqb ev "call" then
    match tracefunc self with
    | Some g =>
        match call_trace self g ev with
        | Return lt => Return (lt :: frames self)
        | Raise e => Raise e
        end
    | None => Return (None :: frames self)
    end
  else
    match tracefunc self, frames self with
    | Some _, Some f :: rest =>
        match call_trace self f ev with
        | Return lt =>
            Return (if String.eqb ev "return" then rest else lt :: rest)
        | Raise e => Raise e
        end
    | _, _ :: rest =>
        Return (if String.eqb ev "return" then rest else frames self)
    | _, [] => Return []
    end.

(** The innermost enclosing handler whose class covers [e]. *)
Fixpoint find_handler (e : exn_class) (hs : list handler) : option handler :=
  match hs with
  | [] => None
  | h :: rest => if issubclass e (catches h) then Some h else find_handler e rest
  end.

Definition with_ctx (self : t) (st : life) (sg : stage)
    (tf : option tracefn) (fr : list (option tracefn)) (p : nat) : t :=
  {| target := target self; kwargs := kwargs self; daemon := daemon self;
     killed := killed self;
     run := run self; run_backup := run_backup self;
     status := st; stage_of := sg; tracefunc := tf; frames := fr; pc := p |}.

(** [del self._target, self._args, self._kwargs]. *)
Definition del_attrs (self : t) : t :=
  {| target := None; kwargs := None; daemon := daemon self;
     killed := killed self;
     run := run self; run_backup := run_backup self;
     status := status self; stage_of := stage_of self;
     tracefunc := tracefunc self; frames := frames self; pc := pc self |}.

(** What the target does at the position of the thread; reading an
    attribute that [run] has deleted raises [AttributeError]. *)
Definition fetch (self : t) : point :=
  match target self, kwargs self with
  | Some tgt, Some kw => tgt kw (pc self)
  | _, _ => Raises AttributeError
  end.

(** The instruction whose event is reported next: the call of [run], one of
    its own lines, an instruction of the target, or, where the target has
    ended, the line of the [finally] clause.  (When an exception leaves the
    target the frame of [run] reports an ['exception'] event first; no
    trace function raises at it and it is passed over.) *)
Definition next_instr (self : t) : option instr :=
  match stage_of self with
  | Enter => Some {| event := "call"; handlers := [] |}
  | AtTry | AtIf | AtCall => Some own_line
  | InTarget =>
      match fetch self with
      | Emits i => Some i
      | Returns | Raises _ => Some own_line
      end
  end.

(** The end of [run] after the line of the [finally] clause was reported
    and the attributes are deleted: the ['return'] event of the frame of
    [run]; then, if no exception is pending, [__run] goes on with
    [self.run = self.__run_backup] and the thread ends; a pending exception
    leaves [run] and [__run] and ends the thread. *)
Definition finish (self : t) (fr : list (option tracefn))
    (pending : option exn_class) : t :=
  match dispatch (with_ctx self Live (stage_of self) (tracefunc self) fr
                    (pc self)) "return" with
  | Return fr' =>
      match pending with
      | None =>
          {| target := target self; kwargs := kwargs self;
             daemon := daemon self; killed := killed self;
             run := default (run self) (run_backup self);
             run_backup := run_backup self;
             status := Returned; stage_of := stage_of self;
             tracefunc := tracefunc self; frames := fr'; pc := pc self |}
      | Some e =>
          with_ctx self (Exited e) (stage_of self) (tracefunc self) fr'
                   (pc self)
      end
  | Raise e => with_ctx self (Exited e) (stage_of self) None fr (pc self)
  end.

(** The event was reported and no trace function raised: the instruction
    is executed.  [fr] are the frames after the event. *)
Definition proceed (self : t) (fr : list (option tracefn)) : t :=
  match stage_of self with
  | Enter => with_ctx self Live AtTry (tracefunc self) fr (pc self)
  | AtTry => with_ctx self Live AtIf (tracefunc self) fr (pc self)
  | AtIf =>
      match target self with
      | Some _ => with_ctx self Live AtCall (tracefunc self) fr (pc self)
      | None =>
          with_ctx self (Exited AttributeError) AtIf (tracefunc self) fr
                   (pc self)
      end
  | AtCall =>
      match target self, kwargs self with
      | Some _, Some _ => with_ctx self Live InTarget (tracefunc self) fr 0
      | _, _ =>
          with_ctx self (Exited AttributeError) AtCall (tracefunc self) fr
                   (pc self)
      end
  | InTarget =>
      match fetch self with
      | Emits _ =>
          with_ctx self Live InTarget (tracefunc self) fr (S (pc self))
      | Returns => finish (del_attrs self) fr None
      | Raises e => finish (del_attrs self) fr (Some e)
      end
  end.

(** A trace function raised [e] and no handler of the traced code covers
    it: the exception leaves [run] and ends the thread.  On its way out of
    the [try] block the [finally] clause deletes the attributes, no event
    being reported any more; the line [try:] and the line of the [finally]
    clause itself are outside the block. *)
Definition propagate (self : t) (e : exn_class) : t :=
  match stage_of self with
  | Enter | AtTry =>
      with_ctx self (Exited e) (stage_of self) None (frames self) (pc self)
  | AtIf | AtCall =>
      with_ctx (del_attrs self) (Exited e) (stage_of self) None
               (frames self) (pc self)
  | InTarget =>
      match fetch self with
      | Emits _ =>
          with_ctx (del_attrs self) (Exited e) InTarget None (frames self)
                   (pc self)
      | Returns | Raises _ =>
          with_ctx self (Exited e) InTarget None (frames self) (pc self)
      end
  end.

(** One step of a live thread inside [__run]: the next event is reported.
    When a trace function raises, the interpreter unsets the trace function
    of the thread (as [sys.settrace(None)] would) and the exception is
    raised at the current point of the traced code: an enclosing handler
    that covers it takes over, otherwise it leaves [run] and ends the
    thread. *)
Definition step (self : t) : t :=
  match status self with
  | Live =>
      match next_instr self with
      | Some i =>
          match dispatch self (event i) with
          | Return fr => proceed self fr
          | Raise e =>
              match find_handler e (handlers i) with
              | Some h =>
                  with_ctx self Live (stage_of self) None
                           (drop (unwind h) (frames self)) (resume h)
              | None => propagate self e
              end
          end
      | None => self
      end
  | _ => self
  end.

Fixpoint steps (n : nat) (self : t) : t :=
  match n with
  | 0 => self
  | S k => steps k (step self)
  end.

(** [threading.Thread.join()] without a timeout: raises [RuntimeError] on a
    thread that was not started, returns once the thread is no longer
    alive, and until then leaves the caller waiting while the thread runs.
    [None]: still waiting after [fuel] steps of the thread. *)
Fixpoint join (fuel : nat) (self : t) : option (t * pyresult unit) :=
  if negb (started self) then Some (self, Raise RuntimeError)
  else if negb (is_alive self) then Some (self, Return tt)
  else match fuel with
       | 0 => None
       | S k => join k (step self)
       end.

End ThreadWithTrace.

(** ** The module-level supervisor: [thread], [launch] and [kill] *)

(** The module state: the global [thread] ([None] or a reference to a thread
    object), the thread objects created so far, addressed by their index, and
    what [print] has written. *)
Record state := {
  thread : option nat;
  heap : list ThreadWithTrace.t;
  stdout : list string
}.

(** The module as imported: [thread = None], no thread object, no output. *)
Definition initial : state := {| thread := None; heap := []; stdout := [] |}.

Section Supervisor.

(** [app.run] of the Flask application, seen through the events its
    execution produces, and [SERVER_PORT] of [mage_ai.server.constants]:
    both are defined outside this module. *)
Variable app_run : callable.
Variable SERVER_PORT : Z.

(** Whether [threading.Thread] has the method [isAlive]: it has up to
    Python 3.8; Python 3.9 removed it and left [is_alive] only. *)
Variable thread_has_isAlive : bool.

(** [launch()]: builds the keyword arguments, binds the global [thread] to
    a new [ThreadWithTrace], starts it and returns it. *)
Definition launch (st : state) : state * pyresult pyval :=
  let app_kwargs :=
    {| port := SERVER_PORT; host := "localhost"; debug := false |} in
  let r := length (heap st) in
  let started :=
    ThreadWithTrace.start (ThreadWithTrace.init app_run app_kwargs true) in
  let st' :=
    {| thread := Some r; heap := heap st ++ [started.1];
       stdout := stdout st |} in
  match started.2 with
  | Return _ => (st', Return (PyRef r))
  | Raise e => (st', Raise e)
  end.

(** [kill()]: when [thread] is not [None], [thread.kill()], [thread.join()]
    and then [thread.isAlive()]: where that method exists it is
    [is_alive], and a message is printed when the thread is no longer
    alive; where it does not, the call raises [AttributeError].  The
    function has no [return] statement.  The result is [None] while [join]
    is still waiting after [fuel] steps of the thread, and for a [thread]
    that refers to no object, which Python excludes. *)
Definition kill (fuel : nat) (st : state) : option (state * pyresult pyval) :=
  match thread st with
  | Some r =>
      w ← heap st !! r;
      '(w', res) ← ThreadWithTrace.join fuel (ThreadWithTrace.kill w);
      let st' :=
        {| thread := thread st; heap := <[r := w']> (heap st);
           stdout := stdout st |} in
      match res with
      | Raise e => Some (st', Raise e)
      | Return _ =>
          if thread_has_isAlive then
            if negb (ThreadWithTrace.is_alive w') then
              Some ({| thread := thread st'; heap := heap st';
                       stdout := stdout st'
                                 ++ ["Flask server is terminated"] |},
                    Return PyNone)
            else Some (st', Return PyNone)
          else Some (st', Raise AttributeError)
      end
  | None => Some (st, Return PyNone)
  end.

(** The scheduler lets the thread at reference [r] execute one step. *)
Definition tick (r : nat) (st : state) : state :=
  match heap st !! r with
  | Some w =>
      {| thread := thread st; heap := <[r := ThreadWithTrace.step w]> (heap st);
         stdout := stdout st |}
  | None => st
  end.

(** What can happen to the module: a call of [launch], a call of [kill]
    that comes back, a step of one of the threads. *)
Inductive action := Launch | Kill (fuel : nat) | Tick (r : nat).

Definition perform (a : action) (st : state) : option state :=
  match a with
  | Launch => Some (launch st).1
  | Kill fuel => fst <$> kill fuel st
  | Tick r => Some (tick r st)
  end.

Fixpoint perform_all (acts : list action) (st : state) : option state :=
  match acts with
  | [] => Some st
  | a :: rest => st' ← perform a st; perform_all rest st'
  end.

End Supervisor.

(** ** Notions of the specification, read off the thread object *)

(** The worker states of the specification. *)
Inductive worker_state := NotStarted | Running | StopRequested | Stopped.

Definition state_of (w : ThreadWithTrace.t) : worker_state :=
  match ThreadWithTrace.status w with
  | Unstarted => NotStarted
  | Live => if ThreadWithTrace.killed w then StopRequested else Running
  | Returned | Exited _ => Stopped
  end.

(** A worker is active when it is [Running] or [StopRequested]. *)
Definition active (w : ThreadWithTrace.t) : bool :=
  match state_of w with
  | Running | StopRequested => true
  | _ => false
  end.

(** No two distinct thread objects are active at once. *)
Definition at_most_one_active (st : state) : Prop :=
  forall i j wi wj,
    heap st !! i = Some wi -> heap st !! j = Some wj ->
    active wi = true -> active wj = true -> i = j.

(** The worker that [thread] refers to, if any, is not active. *)
Definition slot_idle (st : state) : bool :=
  match thread st with
  | Some r =>
      match heap st !! r with
      | Some w => negb (active w)
      | None => true
      end
  | None => true
  end.

(** Every [Launch] of the run is issued while the slot is idle. *)
Fixpoint disciplined (app_run : callable) (SERVER_PORT : Z)
    (thread_has_isAlive : bool) (acts : list action) (st : state) : bool :=
  match acts with
  | [] => true
  | a :: rest =>
      match a with Launch => slot_idle st | _ => true end
      && match perform app_run SERVER_PORT thread_has_isAlive a st with
         | Some st' =>
             disciplined app_run SERVER_PORT thread_has_isAlive rest st'
         | None => true
         end
  end.


(** What [kill()] comes back with once the worker of the slot has stopped:
    [None] where [isAlive] exists, [AttributeError] where it does not. *)
Definition kill_outcome (thread_has_isAlive : bool) : pyresult pyval :=
  if thread_has_isAlive then Return PyNone else Raise AttributeError.

(** What [kill()] has printed by then. *)
Definition kill_output (thread_has_isAlive : bool) (out : list string)
  : list string :=
  if thread_has_isAlive then out ++ ["Flask server is terminated"] else out.

(** The thread is about to report a ['line'] event to [localtrace]. *)
Definition traced_line (w : ThreadWithTrace.t) : bool :=
  match ThreadWithTrace.status w, ThreadWithTrace.next_instr w,
        ThreadWithTrace.tracefunc w, ThreadWithTrace.frames w with
  | Live, Some i, Some _, Some Localtrace :: _ => String.eqb (event i) "line"
  | _, _, _, _ => false
  end.

(** ** Sample targets *)

(** A serve loop: entered by a call, then one line after the other, without
    end and without [except] clause. *)
Definition serve_forever : callable := fun _ n =>
  match n with
  | 0 => Emits {| event := "call"; handlers := [] |}
  | S _ => Emits {| event := "line"; handlers := [] |}
  end.

(** A loop whose body sits in a [try] with an [except BaseException] clause:
    after the call, the lines at odd positions are in the [try] body and the
    clause takes over at the position that follows; the lines at even
    positions are the clause body. *)
Definition catch_all_loop : callable := fun _ n =>
  match n with
  | 0 => Emits {| event := "call"; handlers := [] |}
  | S k =>
      if Nat.even k
      then Emits {| event := "line";
                    handlers := [ {| catches := BaseException;
                                     resume := S (S k); unwind := 0 |} ] |}
      else Emits {| event := "line"; handlers := [] |}
  end.

(** A target that is entered by a call, executes one line and fails with
    an error of its own. *)
Definition failing_target : callable := fun _ n =>
  match n with
  | 0 => Emits {| event := "call"; handlers := [] |}
  | 1 => Emits {| event := "line"; handlers := [] |}
  | 2 => Emits {| event := "exception"; handlers := [] |}
  | 3 => Emits {| event := "return"; handlers := [] |}
  | _ => Raises KeyError
  end.

(** A target that is entered by a call, executes one line and returns. *)
Definition short_target : callable := fun _ n =>
  match n with
  | 0 => Emits {| event := "call"; handlers := [] |}
  | 1 => Emits {| event := "line"; handlers := [] |}
  | 2 => Emits {| event := "return"; handlers := [] |}
  | _ => Returns
  end.

Definition sample_config : Config :=
  {| port := 8080; host := "0.0.0.0"; debug := true |}.

(** The module after one [launch()] of the serve loop, after the [kill()]
    that follows, and after two [launch()] in a row. *)
Definition st_launched : state := (launch serve_forever 6789 initial).1.

Definition st_killed (thread_has_isAlive : bool) : state :=
  match kill thread_has_isAlive 2 st_launched with
  | Some (st, _) => st
  | None => st_launched
  end.

Definition st_relaunched : state := (launch serve_forever 6789 st_launched).1.

(** A thread object fresh from its constructor. *)
Definition fresh_worker : ThreadWithTrace.t :=
  ThreadWithTrace.init serve_forever sample_config true.

(** The thread object that [launch()] creates and starts. *)
Definition launched_worker (app_run : callable) (SERVER_PORT : Z)
  : ThreadWithTrace.t :=
  (ThreadWithTrace.start
     (ThreadWithTrace.init app_run
        {| port := SERVER_PORT; host := "localhost"; debug := false |}
        true)).1.

(** The worker of the slot, if any worker is active at all. *)
Definition only_slot_active (st : state) : Prop :=
  forall i w, heap st !! i = Some w -> active w = true -> thread st = Some i.

(** A run that launches, lets the worker serve, kills it, launches again and
    kills again. *)
Definition sample_run : list action :=
  [Launch; Tick 0; Tick 0; Kill 5; Launch; Tick 1; Kill 5].

Definition st_sample (thread_has_isAlive : bool) : state :=
  default initial
    (perform_all serve_forever 6789 thread_has_isAlive sample_run initial).

(** [kill()] on a thread object fresh from its constructor, then [start()]. *)
Definition started_after_kill (tgt : callable) (kw : Config) (dmn : bool)
  : ThreadWithTrace.t * pyresult unit :=
  ThreadWithTrace.start (ThreadWithTrace.kill (ThreadWithTrace.init tgt kw dmn)).

(** No trace function will be called any more: the thread has ended or its
    trace function is unset. *)
Definition quiet (w : ThreadWithTrace.t) : Prop :=
  ThreadWithTrace.status w <> Live \/ ThreadWithTrace.tracefunc w = None.

(** The module after [launch()] of the loop with the catch-all clause and
    the steps that take its worker through [run] into the target, and that
    worker once it has entered the loop and its flag is set. *)
Definition st_catching : state :=
  default initial
    (perform_all catch_all_loop 6789 true
       [Launch; Tick 0; Tick 0; Tick 0; Tick 0] initial).

Definition catching_worker : ThreadWithTrace.t :=
  ThreadWithTrace.kill
    (ThreadWithTrace.steps 5 (launched_worker catch_all_loop 6789)).


(** ** Notions for whole runs of the module *)

(** The order in which a worker passes through its states. *)
Definition rank (s : worker_state) : nat :=
  match s with
  | NotStarted => 0
  | Running => 1
  | StopRequested => 2
  | Stopped => 3
  end.

(** [w'] is a later stage of the thread object [w]: it has not gone back in
    its life cycle, a flag that was set is still set, its daemon flag is
    that of [w], and its target and keyword arguments are those of [w]
    unless [run] has deleted them. *)
Definition evolves (w w' : ThreadWithTrace.t) : Prop :=
  rank (state_of w) <= rank (state_of w')
  /\ (ThreadWithTrace.killed w = true -> ThreadWithTrace.killed w' = true)
  /\ ThreadWithTrace.daemon w' = ThreadWithTrace.daemon w
  /\ (ThreadWithTrace.target w' = ThreadWithTrace.target w
      \/ ThreadWithTrace.target w' = None)
  /\ (ThreadWithTrace.kwargs w' = ThreadWithTrace.kwargs w
      \/ ThreadWithTrace.kwargs w' = None).

(** The global [thread] refers to the thread object created last, and is
    [None] only as long as none was created. *)
Definition newest_in_slot (st : state) : Prop :=
  match thread st with
  | Some r => S r = length (heap st)
  | None => heap st = []
  end.

(** A thread object as [launch] builds it, at some point of its life: it
    was started, is a daemon, and as long as it is alive it has [app.run]
    and the keyword arguments of [launch]. *)
Definition built_by_launch (app_run : callable) (SERVER_PORT : Z)
    (w : ThreadWithTrace.t) : Prop :=
  ThreadWithTrace.started w = true
  /\ ThreadWithTrace.daemon w = true
  /\ (ThreadWithTrace.is_alive w = true ->
      ThreadWithTrace.target w = Some app_run
      /\ ThreadWithTrace.kwargs w
         = Some {| port := SERVER_PORT; host := "localhost";
                   debug := false |}).

(** The shape of the module states that calls of [launch] and [kill] and
    steps of the threads produce. *)
Definition state_ok (app_run : callable) (SERVER_PORT : Z) (st : state)
  : Prop :=
  newest_in_slot st
  /\ Forall (built_by_launch app_run SERVER_PORT) (heap st)
  /\ Forall (fun line => line = "Flask server is terminated") (stdout st).

(** A run that launches twice in a row, and what may follow it. *)
Definition double_launch : list action := [Launch; Launch].

Definition after_double_launch : list action :=
  [Kill 5; Tick 0; Tick 0; Launch; Kill 5].

(** ** The route [/feature_sets]

    [FeatureSet] of [mage_ai.server.data.models] is defined outside this
    module: the stored objects and [to_dict(detailed=False)] are taken as
    given, the dictionary it returns having the entries [id] and [metadata]
    that the docstring of the route lists.  The response is described by the
    list handed to [simplejson.dumps], the status and the MIME type. *)
Section FeatureSets.

Variable value : Type.

Record feature_set_dict := {
  fs_id : string;
  metadata : gmap string value
}.

Record response := {
  body : list feature_set_dict;
  status_code : Z;
  mimetype : string
}.

Variable FeatureSet : Type.
Variable to_dict : FeatureSet -> feature_set_dict.

(** [feature_sets()], [objects] being what [FeatureSet.objects()] returns. *)
Definition feature_sets (objects : list FeatureSet) : response :=
  let feature_sets := map to_dict objects in
  let valid_feture_sets :=
    filter (fun f =>
              ({[ "column_types"; "statistics" ]} : gset string)
                ⊆ dom (metadata f))
           feature_sets in
  {| body := valid_feture_sets; status_code := 200;
     mimetype := "application/json" |}.

End FeatureSets.

Arguments fs_id {value} _.
Arguments metadata {value} _.
Arguments body {value} _.
Arguments status_code {value} _.
Arguments mimetype {value} _.
Arguments feature_sets {value FeatureSet} to_dict objects.

(** Three stored feature sets: one analysed, one with column types only,
    one without metadata. *)
Definition sample_feature_sets : list (feature_set_dict nat) :=
  [ {| fs_id := "1";
       metadata := <["column_types" := 1]> (<["statistics" := 2]> ∅) |};
    {| fs_id := "2"; metadata := <["column_types" := 1]> ∅ |};
    {| fs_id := "3"; metadata := ∅ |} ].

(** ** Facts about the run time model *)

(** Case analysis on the innermost scrutinee of the goal, repeated. *)
Ltac case_match_goal :=
  repeat match goal with
         | |- context [match ?x with _ => _ end] =>
             lazymatch x with
             | context [match _ with _ => _ end] => fail
             | _ => destruct x eqn:?
             end
         end.

Section RunTime.
Import ThreadWithTrace.

Lemma step_not_live (w : t) : status w <> Live -> step w = w.
Proof. unfold step. destruct (status w); congruence. Qed.

Lemma steps_not_live (n : nat) (w : t) : status w <> Live -> steps n w = w.
Proof.
  induction n as [|n IH]; intros Hw; [reflexivity|].
  simpl. rewrite (step_not_live w Hw). exact (IH Hw).
Qed.

Lemma steps_S (n : nat) (w : t) : steps (S n) w = step (steps n w).
Proof.
  revert w. induction n as [|n IH]; intros w; [reflexivity|].
  change (steps (S n) (step w) = step (steps n (step w))). apply IH.
Qed.

Lemma steps_add (n m : nat) (w : t) : steps (n + m) w = steps m (steps n w).
Proof. revert w. induction n as [|n IH]; intros w; simpl; auto. Qed.

Lemma is_alive_status (w : t) : is_alive w = true <-> status w = Live.
Proof. unfold is_alive. destruct (status w); split; congruence. Qed.

Lemma not_alive_status (w : t) : is_alive w = false <-> status w <> Live.
Proof. unfold is_alive. destruct (status w); split; congruence. Qed.

(** [step] leaves [killed] and the daemon flag as they are. *)
Lemma step_frame (w : t) :
  killed (step w) = killed w /\ daemon (step w) = daemon w.
Proof.
  unfold step, proceed, propagate, finish. case_match_goal; auto.
Qed.

Lemma steps_frame (n : nat) (w : t) :
  killed (steps n w) = killed w /\ daemon (steps n w) = daemon w.
Proof.
  revert w. induction n as [|n IH]; intros w; [auto|].
  simpl. destruct (IH (step w)) as (-> & ->). apply step_frame.
Qed.

(** As long as the thread is alive [run] has not deleted its target and
    keyword arguments; a step changes them in no other way. *)
Lemma step_attrs (w : t) :
  (target (step w) = target w \/ target (step w) = None)
  /\ (kwargs (step w) = kwargs w \/ kwargs (step w) = None)
  /\ (status (step w) = Live ->
      target (step w) = target w /\ kwargs (step w) = kwargs w).
Proof.
  unfold step, proceed, propagate, finish.
  case_match_goal; simpl; repeat split; auto; discriminate.
Qed.

Lemma steps_attrs (n : nat) (w : t) :
  (target (steps n w) = target w \/ target (steps n w) = None)
  /\ (kwargs (steps n w) = kwargs w \/ kwargs (steps n w) = None)
  /\ (status (steps n w) = Live ->
      target (steps n w) = target w /\ kwargs (steps n w) = kwargs w).
Proof.
  induction n as [|n IH]; [auto|].
  rewrite steps_S. destruct IH as (Ht & Hk & Hl).
  destruct (step_attrs (steps n w)) as (Ht' & Hk' & Hl').
  repeat split.
  - destruct Ht' as [->|]; auto.
  - destruct Hk' as [->|]; auto.
  - destruct (Hl' H) as (-> & _). apply Hl.
    destruct (status (steps n w)) eqn:E; try reflexivity;
      rewrite step_not_live in H by congruence; congruence.
  - destruct (Hl' H) as (_ & ->). apply Hl.
    destruct (status (steps n w)) eqn:E; try reflexivity;
      rewrite step_not_live in H by congruence; congruence.
Qed.

(** A thread that was started stays started, one that ended stays as it
    ended. *)
Lemma step_started (w : t) : started w = true -> started (step w) = true.
Proof.
  unfold started, step. destruct (status w) eqn:E; try (rewrite E; auto); [].
  intros _. unfold proceed, propagate, finish. case_match_goal; auto;
    simpl in *; congruence.
Qed.

Lemma steps_started (n : nat) (w : t) :
  started w = true -> started (steps n w) = true.
Proof.
  revert w. induction n as [|n IH]; intros w H; [exact H|].
  simpl. apply IH, step_started, H.
Qed.

Lemma live_before (n : nat) (w : t) :
  status (steps n w) = Live -> status w = Live.
Proof.
  intros H. destruct (status w) eqn:E; [| reflexivity | |];
    rewrite steps_not_live in H by congruence; congruence.
Qed.

Lemma live_between (n m : nat) (w : t) :
  m <= n -> status (steps n w) = Live -> status (steps m w) = Live.
Proof.
  intros Hle H. replace n with (m + (n - m)) in H by lia.
  rewrite steps_add in H. exact (live_before _ _ H).
Qed.

End RunTime.

Section Join.
Import ThreadWithTrace.

Lemma join_eq (fuel : nat) (w : t) :
  join fuel w =
    if negb (started w) then Some (w, Raise RuntimeError)
    else if negb (is_alive w) then Some (w, Return tt)
    else match fuel with
         | 0 => None
         | S k => join k (step w)
         end.
Proof. destruct fuel; reflexivity. Qed.

(** A started thread that is no longer alive is joined at once, whatever
    the fuel. *)
Lemma join_ended (fuel : nat) (w : t) :
  started w = true -> is_alive w = false ->
  join fuel w = Some (w, Return tt).
Proof. intros Hs Ha. rewrite join_eq, Hs, Ha. reflexivity. Qed.

(** Enough fuel gives the result: if the thread is no longer alive after
    [n] steps, [join] returns with the thread as it is at the step where
    it ended. *)
Lemma join_returns (n : nat) (w : t) :
  started w = true -> is_alive (steps n w) = false ->
  exists m, m <= n /\ is_alive (steps m w) = false /\
    forall fuel, n <= fuel -> join fuel w = Some (steps m w, Return tt).
Proof.
  revert w. induction n as [|n IH]; intros w Hs Hn.
  - exists 0. repeat split; auto. intros fuel _. now apply join_ended.
  - destruct (is_alive w) eqn:Ha.
    + destruct (IH (step w) (step_started w Hs) Hn) as (m & Hm & Hd & Hj).
      exists (S m). repeat split; [lia | exact Hd |].
      intros [|fuel] Hf; [lia|].
      rewrite join_eq, Hs, Ha. simpl. apply Hj. lia.
    + exists 0. repeat split; [lia | exact Ha |].
      intros fuel _. now apply join_ended.
Qed.

(** What [join] returns on a started thread. *)
Lemma join_inv (fuel : nat) (w w' : t) (r : pyresult unit) :
  started w = true -> join fuel w = Some (w', r) ->
  r = Return tt /\ is_alive w' = false /\ exists m, w' = steps m w.
Proof.
  revert w. induction fuel as [|fuel IH]; intros w Hs; rewrite join_eq, Hs;
    simpl; destruct (is_alive w) eqn:Ha; simpl; intros H; try discriminate.
  - injection H as <- <-. repeat split; auto. now exists 0.
  - destruct (IH (step w) (step_started w Hs) H) as (-> & Hd & m & ->).
    repeat split; auto. now exists (S m).
  - injection H as <- <-. repeat split; auto. now exists 0.
Qed.

Lemma join_steps (fuel : nat) (w w' : t) (r : pyresult unit) :
  join fuel w = Some (w', r) -> exists m, w' = steps m w.
Proof.
  revert w. induction fuel as [|fuel IH]; intros w; rewrite join_eq.
  all: destruct (negb (started w)); [intros [= <- <-]; now exists 0|].
  all: destruct (negb (is_alive w)); [intros [= <- <-]; now exists 0|].
  - discriminate.
  - intros H. destruct (IH _ H) as (m & ->). now exists (S m).
Qed.

(** [join] is still waiting after [fuel] steps exactly when the thread is
    still alive then. *)
Lemma join_waits (fuel : nat) (w : t) :
  started w = true ->
  join fuel w = None <-> is_alive (steps fuel w) = true.
Proof.
  revert w. induction fuel as [|fuel IH]; intros w Hs; rewrite join_eq, Hs;
    simpl; destruct (is_alive w) eqn:Ha; simpl.
  - tauto.
  - split; discriminate.
  - apply IH, step_started, Hs.
  - rewrite step_not_live by now apply not_alive_status.
    rewrite steps_not_live by now apply not_alive_status.
    rewrite Ha. split; discriminate.
Qed.

End Join.

(** ** What the trace functions do to the traced code *)

Section Tracing.
Import ThreadWithTrace.

(** A trace function raises only [SystemExit], only when the flag is set,
    and only at a ['line'] event handed to [localtrace]. *)
Lemma dispatch_raise_inv (w : t) (ev : string) (e : exn_class) :
  dispatch w ev = Raise e ->
  e = SystemExit /\ killed w = true /\ ev = "line"
  /\ exists g rest, tracefunc w = Some g /\ frames w = Some Localtrace :: rest.
Proof.
  unfold dispatch. destruct (String.eqb ev "call") eqn:Ec.
  - destruct (tracefunc w) as [[|]|]; simpl; try discriminate.
    + unfold globaltrace. rewrite Ec. discriminate.
    + unfold localtrace. apply String.eqb_eq in Ec. subst ev.
      destruct (killed w); discriminate.
  - destruct (tracefunc w) as [g|]; [|destruct (frames w); discriminate].
    destruct (frames w) as [|[[|]|] rest]; simpl; try discriminate.
    + unfold globaltrace. rewrite Ec. discriminate.
    + unfold localtrace. destruct (killed w); [|discriminate].
      destruct (String.eqb_spec ev "line") as [->|]; [|discriminate].
      intros [= <-]. repeat split; eauto.
Qed.

Lemma dispatch_unkilled (w : t) (ev : string) :
  killed w = false -> exists fr, dispatch w ev = Return fr.
Proof.
  intros Hk. destruct (dispatch w ev) as [fr|e] eqn:E; [eauto|].
  apply dispatch_raise_inv in E as (_ & Hk' & _). congruence.
Qed.

Lemma dispatch_untraced (w : t) (ev : string) :
  tracefunc w = None -> exists fr, dispatch w ev = Return fr.
Proof.
  intros Ht. destruct (dispatch w ev) as [fr|e] eqn:E; [eauto|].
  apply dispatch_raise_inv in E as (_ & _ & _ & g & rest & Hg & _).
  congruence.
Qed.

Lemma dispatch_not_line (w : t) (ev : string) :
  ev <> "line" -> exists fr, dispatch w ev = Return fr.
Proof.
  intros Hne. destruct (dispatch w ev) as [fr|e] eqn:E; [eauto|].
  apply dispatch_raise_inv in E as (_ & _ & He & _). contradiction.
Qed.

(** [dispatch] reads the flag, the trace function of the thread and the
    frames, and nothing else of the thread object. *)
Lemma dispatch_ext (w v : t) (ev : string) :
  killed w = killed v -> tracefunc w = tracefunc v -> frames w = frames v ->
  dispatch w ev = dispatch v ev.
Proof.
  intros Hk Ht Hf. unfold dispatch, call_trace, localtrace, globaltrace.
  now rewrite Hk, Ht, Hf.
Qed.

(** Off the traced lines the flag plays no part in what is dispatched. *)
Lemma dispatch_kill (w : t) (ev : string) :
  (tracefunc w = None \/ ev <> "line"
   \/ forall rest, frames w <> Some Localtrace :: rest) ->
  dispatch (kill w) ev = dispatch w ev.
Proof.
  intros H. unfold dispatch. simpl.
  destruct (String.eqb ev "call") eqn:Ec.
  - destruct (tracefunc w) as [[|]|]; try reflexivity. simpl.
    unfold localtrace. simpl. apply String.eqb_eq in Ec. subst ev.
    now destruct (killed w).
  - destruct (tracefunc w) as [g|]; [|reflexivity].
    destruct (frames w) as [|[[|]|] rest]; try reflexivity. simpl.
    unfold localtrace. simpl.
    destruct (String.eqb_spec ev "line") as [->|Hne];
      [|now destruct (killed w)].
    destruct H as [H | [H | H]]; [discriminate | contradiction |].
    now destruct (H rest).
Qed.

Lemma next_instr_some (w : t) : exists i, next_instr w = Some i.
Proof. unfold next_instr. case_match_goal; eauto. Qed.

(** At a traced line of a thread whose flag is set the trace function
    raises [SystemExit]. *)
Lemma traced_line_inv (w : t) :
  traced_line w = true ->
  status w = Live /\ exists i,
    next_instr w = Some i /\ event i = "line"
    /\ (killed w = true -> dispatch w (event i) = Raise SystemExit).
Proof.
  unfold traced_line. destruct (status w); try discriminate.
  destruct (next_instr w) as [i|]; [|discriminate].
  destruct (tracefunc w) as [g|] eqn:Hg; [|discriminate].
  destruct (frames w) as [|[[|]|] rest] eqn:Hf; try discriminate.
  intros He. apply String.eqb_eq in He.
  split; [reflexivity|]. exists i. repeat split; [exact He|].
  intros Hk. unfold dispatch. rewrite He, Hg, Hf. simpl.
  unfold localtrace. now rewrite Hk.
Qed.

Lemma step_at_traced_line (w : t) (i : instr) :
  killed w = true -> traced_line w = true ->
  next_instr w = Some i ->
  step w =
    match find_handler SystemExit (handlers i) with
    | Some h =>
        with_ctx w Live (stage_of w) None (drop (unwind h) (frames w))
                 (resume h)
    | None => propagate w SystemExit
    end.
Proof.
  intros Hk Ht Hi.
  destruct (traced_line_inv w Ht) as (Hs & i' & Hi' & _ & Hd).
  rewrite Hi in Hi'. injection Hi' as <-.
  unfold step. now rewrite Hs, Hi, (Hd Hk).
Qed.

Lemma propagate_exited (w : t) (e : exn_class) :
  status (propagate w e) = Exited e /\ tracefunc (propagate w e) = None
  /\ pc (propagate w e) = pc w /\ stage_of (propagate w e) = stage_of w
  /\ run (propagate w e) = run w.
Proof. unfold propagate. case_match_goal; repeat split; auto. Qed.

Lemma quiet_step (w : t) : quiet w -> quiet (step w).
Proof.
  intros [Hs | Ht]; [left; now rewrite step_not_live|].
  unfold step. destruct (status w) eqn:E; try (left; congruence); [].
  destruct (next_instr w) as [i|]; [|left + right; assumption].
  destruct (dispatch_untraced w (event i) Ht) as (fr & ->).
  unfold proceed, finish. case_match_goal; simpl;
    try (right; assumption); try (left; simpl; congruence);
    try (right; reflexivity).
Qed.

Lemma quiet_steps (n : nat) (w : t) : quiet w -> quiet (steps n w).
Proof.
  revert w. induction n as [|n IH]; intros w H; [exact H|].
  simpl. apply IH, quiet_step, H.
Qed.

Lemma quiet_not_traced (w : t) : quiet w -> traced_line w = false.
Proof.
  unfold traced_line. intros [Hs | ->].
  - destruct (status w); congruence.
  - destruct (status w); try reflexivity.
    destruct (next_instr w); reflexivity.
Qed.


Lemma find_handler_none (e : exn_class) (hs : list handler) :
  Forall (fun h => issubclass e (catches h) = false) hs ->
  find_handler e hs = None.
Proof.
  induction 1 as [|h hs Hh _ IH]; [reflexivity|].
  simpl. now rewrite Hh.
Qed.

End Tracing.

Section TracedTargets.
Import ThreadWithTrace.

Lemma proceed_kill (w : t) (fr : list (option tracefn)) :
  proceed (kill w) fr = kill (proceed w fr).
Proof.
  unfold proceed, finish. simpl.
  destruct (stage_of w); try reflexivity.
  - destruct (target w); reflexivity.
  - destruct (target w), (kwargs w); reflexivity.
  - unfold fetch. simpl.
    destruct (target w) as [tg|], (kwargs w) as [kw|];
      try destruct (tg kw (pc w)); try reflexivity;
      match goal with
      | |- context [dispatch ?x "return"] =>
          change x with (kill (with_ctx (del_attrs w) Live InTarget
                                 (tracefunc w) fr (pc w)));
          rewrite dispatch_kill by (right; left; discriminate);
          destruct (dispatch (with_ctx (del_attrs w) Live InTarget
                                (tracefunc w) fr (pc w)) "return");
          reflexivity
      end.
Qed.

Lemma propagate_kill (w : t) (e : exn_class) :
  propagate (kill w) e = kill (propagate w e).
Proof.
  unfold propagate, fetch. simpl.
  destruct (stage_of w); try reflexivity.
  destruct (target w) as [tg|], (kwargs w) as [kw|];
    try destruct (tg kw (pc w)); reflexivity.
Qed.

Lemma step_kill_commute (w : t) :
  traced_line w = false -> step (kill w) = kill (step w).
Proof.
  intros Ht. unfold step.
  change (status (kill w)) with (status w).
  change (next_instr (kill w)) with (next_instr w).
  change (frames (kill w)) with (frames w).
  change (stage_of (kill w)) with (stage_of w).
  destruct (status w) eqn:Hs; try reflexivity.
  destruct (next_instr w) as [i|] eqn:Hi; [|reflexivity].
  rewrite dispatch_kill.
  - destruct (dispatch w (event i)); [apply proceed_kill|].
    destruct (find_handler e (handlers i)); [reflexivity|].
    apply propagate_kill.
  - unfold traced_line in Ht. rewrite Hs, Hi in Ht.
    destruct (tracefunc w) as [g|]; [|now left]. right.
    destruct (frames w) as [|[[|]|] rest];
      try (right; intros rest'; discriminate).
    left. now apply String.eqb_neq.
Qed.

(** The loop with the catch-all clause goes on for ever once tracing is
    off. *)
Lemma catch_all_loop_goes_on (n : nat) (w : t) :
  status w = Live -> tracefunc w = None -> stage_of w = InTarget ->
  target w = Some catch_all_loop -> is_Some (kwargs w) ->
  status (steps n w) = Live.
Proof.
  revert w. induction n as [|n IH]; intros w Hs Ht Hg Hc (kw & Hkw);
    [exact Hs|].
  simpl.
  assert (Hi : exists i, fetch w = Emits i).
  { unfold fetch. rewrite Hc, Hkw. unfold catch_all_loop.
    destruct (pc w) as [|k]; [eauto|]. destruct (Nat.even k); eauto. }
  destruct Hi as (i & Hi).
  assert (Hn : next_instr w = Some i)
    by (unfold next_instr; now rewrite Hg, Hi).
  destruct (dispatch_untraced w (event i) Ht) as (fr & Hd).
  assert (Hstep : step w
                  = with_ctx w Live InTarget (tracefunc w) fr (S (pc w))).
  { unfold step. rewrite Hs, Hn, Hd. unfold proceed. now rewrite Hg, Hi. }
  rewrite Hstep. apply IH; simpl; eauto.
Qed.

(** The first two steps of a thread whose flag was set before [start]: the
    call of [run], then the line [try:], where [localtrace] raises. *)
Lemma started_killed_steps (w : t) (n : nat) :
  status w = Live -> stage_of w = Enter -> killed w = true ->
  tracefunc w = Some Globaltrace ->
  traced_line w = false
  /\ traced_line (step w) = true
  /\ next_instr (step w) = Some own_line
  /\ dispatch (step w) "line" = Raise SystemExit
  /\ status (steps (2 + n) w) = Exited SystemExit
  /\ stage_of (steps (2 + n) w) = AtTry
  /\ pc (steps (2 + n) w) = pc w
  /\ target (steps (2 + n) w) = target w
  /\ kwargs (steps (2 + n) w) = kwargs w
  /\ run (steps (2 + n) w) = run w.
Proof.
  intros Hs Hg Hk Ht.
  assert (H1 : step w = with_ctx w Live AtTry (Some Globaltrace)
                          (Some Localtrace :: frames w) (pc w)).
  { unfold step, next_instr. rewrite Hs, Hg.
    unfold dispatch. simpl. rewrite Ht. simpl.
    unfold proceed. now rewrite Hg, Ht. }
  assert (H2 : step (step w)
               = with_ctx w (Exited SystemExit) AtTry None
                          (Some Localtrace :: frames w) (pc w)).
  { rewrite H1. unfold step, next_instr, dispatch, propagate. simpl.
    unfold localtrace. simpl. now rewrite Hk. }
  split.
  { unfold traced_line, next_instr. rewrite Hs, Hg. simpl.
    destruct (tracefunc w); [|reflexivity].
    destruct (frames w) as [|[[|]|] ?]; reflexivity. }
  rewrite H1. split; [reflexivity|]. split; [reflexivity|]. split.
  { unfold dispatch. simpl. unfold localtrace. simpl. now rewrite Hk. }
  change (steps (2 + n) w) with (steps n (step (step w))).
  rewrite H1 in H2. rewrite H1, H2.
  rewrite steps_not_live by (simpl; discriminate). simpl.
  repeat split; reflexivity.
Qed.

End TracedTargets.

(** ** The trace functions and the stop flag *)




(** ** [launch] *)

Lemma launch_eq (app_run : callable) (SERVER_PORT : Z) (st : state) :
  launch app_run SERVER_PORT st =
    ({| thread := Some (length (heap st));
        heap := heap st ++ [launched_worker app_run SERVER_PORT];
        stdout := stdout st |},
     Return (PyRef (length (heap st)))).
Proof. reflexivity. Qed.

Lemma launched_worker_running (app_run : callable) (SERVER_PORT : Z) :
  state_of (launched_worker app_run SERVER_PORT) = Running.
Proof. reflexivity. Qed.

(** C2, as the code has it.  [launch()] has no replacement option and never
    fails: in every module state, also when the worker in the slot is
    Running or StopRequested, it creates a worker, starts it (the worker is
    Running), puts it in the slot in place of the former reference and
    returns it; every thread object that existed before is left exactly as
    it was, neither stopped nor joined. *)
Theorem launch_never_rejects
    (app_run : callable) (SERVER_PORT : Z) (st : state) :
  exists w,
    launch app_run SERVER_PORT st =
      ({| thread := Some (length (heap st)); heap := heap st ++ [w];
          stdout := stdout st |},
       Return (PyRef (length (heap st))))
    /\ state_of w = Running
    /\ (launch app_run SERVER_PORT st).1.(heap) !! length (heap st) = Some w
    /\ forall i v, heap st !! i = Some v ->
         (launch app_run SERVER_PORT st).1.(heap) !! i = Some v.
Proof.
  exists (launched_worker app_run SERVER_PORT).
  rewrite launch_eq. simpl. repeat split.
  - rewrite lookup_app_r by lia. now rewrite Nat.sub_diag.
  - intros i v Hi. rewrite lookup_app_l; [exact Hi|].
    now apply lookup_lt_Some in Hi.
Qed.

(** C2 fails as stated: a second [launch()] while the first worker is
    Running returns a new thread object instead of failing. *)
Lemma launch_while_running_succeeds :
  state_of <$> heap st_launched = [Running]
  /\ (launch serve_forever 6789 st_launched).2 = Return (PyRef 1)
  /\ thread st_relaunched = Some 1
  /\ state_of <$> heap st_relaunched = [Running; Running].
Proof. repeat split; reflexivity. Qed.

(** C8, as the code has it.  [launch()] takes no argument: the worker it
    creates always has [app.run] as target, the keyword arguments
    [port=SERVER_PORT], [host='localhost'], [debug=False] built inside
    [launch], and the daemon flag; what it returns is the thread object the
    global [thread] now refers to, the one a later [kill()] acts on. *)
Theorem launch_binds_fixed_config
    (app_run : callable) (SERVER_PORT : Z) (st : state) :
  exists r w,
    (launch app_run SERVER_PORT st).2 = Return (PyRef r)
    /\ thread (launch app_run SERVER_PORT st).1 = Some r
    /\ heap (launch app_run SERVER_PORT st).1 !! r = Some w
    /\ ThreadWithTrace.target w = Some app_run
    /\ ThreadWithTrace.kwargs w
       = Some {| port := SERVER_PORT; host := "localhost"; debug := false |}
    /\ ThreadWithTrace.daemon w = true
    /\ ThreadWithTrace.killed w = false
    /\ ThreadWithTrace.status w = Live.
Proof.
  exists (length (heap st)), (launched_worker app_run SERVER_PORT).
  rewrite launch_eq. simpl. repeat split.
  rewrite lookup_app_r by lia. now rewrite Nat.sub_diag.
Qed.

(** C8 fails as stated: no module state makes [launch()] bind the
    configuration port 8080, host 0.0.0.0, debug on; the worker gets the
    built-in keyword arguments. *)
Lemma launch_cannot_bind_sample_config :
  ThreadWithTrace.kwargs <$> heap st_launched
    = [ Some {| port := 6789; host := "localhost"; debug := false |} ]
  /\ ~ exists st w,
         heap (launch serve_forever 6789 st).1 !! length (heap st) = Some w
         /\ ThreadWithTrace.kwargs w = Some sample_config.
Proof.
  split; [reflexivity|].
  intros (st & w & Hw & Hk). rewrite launch_eq in Hw. simpl in Hw.
  rewrite lookup_app_r in Hw by lia. rewrite Nat.sub_diag in Hw.
  injection Hw as <-. discriminate Hk.
Qed.

(** ** [ThreadWithTrace.kill] *)

(** C9. [ThreadWithTrace.kill] sets [killed] and leaves every other
    attribute and the execution context of the thread as they were: it does
    not advance, wait for or end the thread. *)
Theorem kill_only_sets_flag (w : ThreadWithTrace.t) :
  ThreadWithTrace.killed (ThreadWithTrace.kill w) = true
  /\ ThreadWithTrace.target (ThreadWithTrace.kill w) = ThreadWithTrace.target w
  /\ ThreadWithTrace.kwargs (ThreadWithTrace.kill w) = ThreadWithTrace.kwargs w
  /\ ThreadWithTrace.daemon (ThreadWithTrace.kill w) = ThreadWithTrace.daemon w
  /\ ThreadWithTrace.run (ThreadWithTrace.kill w) = ThreadWithTrace.run w
  /\ ThreadWithTrace.run_backup (ThreadWithTrace.kill w)
     = ThreadWithTrace.run_backup w
  /\ ThreadWithTrace.status (ThreadWithTrace.kill w) = ThreadWithTrace.status w
  /\ ThreadWithTrace.stage_of (ThreadWithTrace.kill w)
     = ThreadWithTrace.stage_of w
  /\ ThreadWithTrace.tracefunc (ThreadWithTrace.kill w)
     = ThreadWithTrace.tracefunc w
  /\ ThreadWithTrace.frames (ThreadWithTrace.kill w) = ThreadWithTrace.frames w
  /\ ThreadWithTrace.pc (ThreadWithTrace.kill w) = ThreadWithTrace.pc w.
Proof. repeat split. Qed.

Lemma kill_idempotent (w : ThreadWithTrace.t) :
  ThreadWithTrace.killed w = true -> ThreadWithTrace.kill w = w.
Proof. destruct w; simpl; intros ->; reflexivity. Qed.

(** C5, as the code has it.  [ThreadWithTrace.kill] does not look at the
    state of the worker: on a worker that is not started, running or ended
    alike it raises nothing and sets the stop flag, leaving the life cycle
    of the thread where it was; it changes nothing only when the flag was
    set already. *)
Theorem kill_sets_flag_in_every_state (w : ThreadWithTrace.t) :
  ThreadWithTrace.killed (ThreadWithTrace.kill w) = true
  /\ ThreadWithTrace.status (ThreadWithTrace.kill w) = ThreadWithTrace.status w
  /\ (ThreadWithTrace.kill w = w <-> ThreadWithTrace.killed w = true).
Proof.
  repeat split.
  - intros <-. reflexivity.
  - apply kill_idempotent.
Qed.

(** C5 fails as stated: on a worker that was never started the call sets
    the flag. *)
Lemma kill_before_start_sets_flag :
  state_of fresh_worker = NotStarted
  /\ ThreadWithTrace.killed fresh_worker = false
  /\ ThreadWithTrace.killed (ThreadWithTrace.kill fresh_worker) = true.
Proof. repeat split; reflexivity. Qed.

(** ** [kill] *)

Lemma kill_no_thread (thread_has_isAlive : bool) (fuel : nat) (st : state) :
  thread st = None ->
  kill thread_has_isAlive fuel st = Some (st, Return PyNone).
Proof. unfold kill. now intros ->. Qed.

Lemma not_alive_stopped (w : ThreadWithTrace.t) :
  ThreadWithTrace.started w = true -> ThreadWithTrace.is_alive w = false ->
  state_of w = Stopped.
Proof.
  unfold ThreadWithTrace.started, ThreadWithTrace.is_alive, state_of.
  destruct (ThreadWithTrace.status w); congruence.
Qed.


(** [kill()] once the worker of the slot, started and no longer alive, has
    been joined. *)
Lemma kill_joined (thread_has_isAlive : bool) (fuel r : nat)
    (w w' : ThreadWithTrace.t) (st : state) :
  thread st = Some r -> heap st !! r = Some w ->
  ThreadWithTrace.join fuel (ThreadWithTrace.kill w) = Some (w', Return tt) ->
  ThreadWithTrace.is_alive w' = false ->
  kill thread_has_isAlive fuel st =
    Some ({| thread := Some r; heap := <[r := w']> (heap st);
             stdout := kill_output thread_has_isAlive (stdout st) |},
          kill_outcome thread_has_isAlive).
Proof.
  intros Ht Hw Hj Hd. unfold kill. rewrite Ht, Hw. simpl. rewrite Hj. simpl.
  rewrite Hd. now destruct thread_has_isAlive.
Qed.








(** ** One active worker at a time *)

Lemma active_live (w : ThreadWithTrace.t) :
  active w = true <-> ThreadWithTrace.status w = Live.
Proof.
  unfold active, state_of.
  destruct (ThreadWithTrace.status w), (ThreadWithTrace.killed w);
    split; congruence.
Qed.

Lemma active_step (w : ThreadWithTrace.t) :
  active (ThreadWithTrace.step w) = true -> active w = true.
Proof. rewrite !active_live. apply (live_before 1). Qed.

Lemma only_slot_active_initial : only_slot_active initial.
Proof. intros i w H. discriminate H. Qed.

Lemma only_slot_active_one (st : state) :
  only_slot_active st -> at_most_one_active st.
Proof.
  intros H i j wi wj Hi Hj Ai Aj.
  pose proof (H i wi Hi Ai) as Ei. pose proof (H j wj Hj Aj) as Ej.
  congruence.
Qed.

(** What [kill()] does to the thread object of the slot. *)
Lemma kill_effect (thread_has_isAlive : bool) (fuel r : nat)
    (st st' : state) (res : pyresult pyval) :
  thread st = Some r ->
  kill thread_has_isAlive fuel st = Some (st', res) ->
  thread st' = Some r
  /\ exists w m,
       heap st !! r = Some w
       /\ heap st' = <[r := ThreadWithTrace.steps m (ThreadWithTrace.kill w)]>
                       (heap st)
       /\ (stdout st' = stdout st
           \/ stdout st' = (stdout st ++ ["Flask server is terminated"])%list).
Proof.
  intros Ht. unfold kill. rewrite Ht.
  destruct (heap st !! r) as [w|]; [|discriminate]. simpl.
  destruct (ThreadWithTrace.join fuel (ThreadWithTrace.kill w))
    as [[w' r']|] eqn:Hj; [|discriminate]. simpl.
  destruct (join_steps _ _ _ _ Hj) as (m & ->).
  destruct r';
    [destruct thread_has_isAlive;
     [destruct (negb (ThreadWithTrace.is_alive
                        (ThreadWithTrace.steps m (ThreadWithTrace.kill w))))|]
    |];
    intros [= <- <-]; simpl; (split; [reflexivity|]); exists w, m; auto.
Qed.

Lemma kill_shape (thread_has_isAlive : bool) (fuel : nat) (st st' : state)
    (res : pyresult pyval) :
  kill thread_has_isAlive fuel st = Some (st', res) ->
  thread st' = thread st
  /\ (heap st' = heap st
      \/ exists r w', thread st = Some r /\ heap st' = <[r := w']> (heap st)).
Proof.
  intros Hk. destruct (thread st) as [r|] eqn:Ht.
  - destruct (kill_effect _ _ _ _ _ _ Ht Hk) as (-> & w & m & _ & -> & _).
    split; [reflexivity|]. right. eauto.
  - rewrite (kill_no_thread _ fuel st Ht) in Hk. injection Hk as <- <-.
    rewrite Ht. auto.
Qed.

Section Invariant.
Variable app_run : callable.
Variable SERVER_PORT : Z.
Variable thread_has_isAlive : bool.

Lemma only_slot_active_launch (st : state) :
  slot_idle st = true -> only_slot_active st ->
  only_slot_active (launch app_run SERVER_PORT st).1.
Proof.
  intros Hidle Hinv i w. rewrite launch_eq. simpl. intros Hi Ha.
  destruct (decide (i < length (heap st))) as [Hlt|Hge].
  - rewrite lookup_app_l in Hi by exact Hlt.
    pose proof (Hinv i w Hi Ha) as Ht.
    unfold slot_idle in Hidle. rewrite Ht, Hi, Ha in Hidle. discriminate.
  - apply lookup_lt_Some in Hi. rewrite length_app in Hi. simpl in Hi.
    f_equal. lia.
Qed.

Lemma only_slot_active_kill (fuel : nat) (st st' : state)
    (res : pyresult pyval) :
  kill thread_has_isAlive fuel st = Some (st', res) -> only_slot_active st ->
  only_slot_active st'.
Proof.
  intros Hk Hinv i w Hi Ha.
  destruct (kill_shape _ _ _ _ _ Hk) as (Ht & [Hh | (r & w' & Hr & Hh)]);
    rewrite Ht.
  - rewrite Hh in Hi. exact (Hinv i w Hi Ha).
  - rewrite Hh in Hi. destruct (decide (r = i)) as [->|Hne]; [exact Hr|].
    rewrite list_lookup_insert_ne in Hi by exact Hne.
    exact (Hinv i w Hi Ha).
Qed.

Lemma only_slot_active_tick (r : nat) (st : state) :
  only_slot_active st -> only_slot_active (tick r st).
Proof.
  intros Hinv i w. unfold tick.
  destruct (heap st !! r) as [v|] eqn:Hv; [|apply Hinv]. simpl.
  intros Hi Ha. destruct (decide (r = i)) as [->|Hne].
  - rewrite list_lookup_insert_eq in Hi by now apply lookup_lt_Some in Hv.
    injection Hi as <-. apply (Hinv i v Hv). now apply active_step.
  - rewrite list_lookup_insert_ne in Hi by exact Hne.
    exact (Hinv i w Hi Ha).
Qed.

Lemma only_slot_active_run (acts : list action) (st st' : state) :
  only_slot_active st ->
  disciplined app_run SERVER_PORT thread_has_isAlive acts st = true ->
  perform_all app_run SERVER_PORT thread_has_isAlive acts st = Some st' ->
  only_slot_active st'.
Proof.
  revert st. induction acts as [|a rest IH]; intros st Hinv Hd Hp.
  - injection Hp as <-. exact Hinv.
  - simpl in Hd, Hp. apply andb_true_iff in Hd as [Ha Hd].
    destruct (perform app_run SERVER_PORT thread_has_isAlive a st)
      as [st1|] eqn:E; [|discriminate].
    simpl in Hp. apply (IH st1); [| exact Hd | exact Hp].
    destruct a as [|fuel|r]; simpl in E.
    + injection E as <-. now apply only_slot_active_launch.
    + destruct (kill thread_has_isAlive fuel st) as [[st2 res]|] eqn:Hk;
        [|discriminate].
      injection E as <-. exact (only_slot_active_kill _ _ _ _ Hk Hinv).
    + injection E as <-. now apply only_slot_active_tick.
Qed.

End Invariant.

(** C6, as the code has it.  [launch()] does not look at the slot, so the
    supervisor keeps the workers apart only as far as its caller does: in
    every module state reached from the initial one by calls of [launch]
    and [kill] and steps of the threads in which each [launch] is issued
    while the worker of the slot is not active, no two workers are active
    at once. *)
Theorem one_active_worker_when_launch_waits
    (app_run : callable) (SERVER_PORT : Z) (thread_has_isAlive : bool)
    (acts : list action) (st : state) :
  disciplined app_run SERVER_PORT thread_has_isAlive acts initial = true ->
  perform_all app_run SERVER_PORT thread_has_isAlive acts initial = Some st ->
  at_most_one_active st.
Proof.
  intros Hd Hp. apply only_slot_active_one.
  exact (only_slot_active_run app_run SERVER_PORT thread_has_isAlive acts
           initial st only_slot_active_initial Hd Hp).
Qed.

Lemma one_active_worker_when_launch_waits_witness :
  disciplined serve_forever 6789 true sample_run initial = true
  /\ perform_all serve_forever 6789 true sample_run initial
     = Some (st_sample true)
  /\ state_of <$> heap (st_sample true) = [Stopped; Stopped]
  /\ at_most_one_active (st_sample true).
Proof.
  assert (Hd : disciplined serve_forever 6789 true sample_run initial = true)
    by (vm_compute; reflexivity).
  assert (Hp : perform_all serve_forever 6789 true sample_run initial
               = Some (st_sample true)) by (vm_compute; reflexivity).
  split; [exact Hd|]. split; [exact Hp|].
  split; [vm_compute; reflexivity|].
  exact (one_active_worker_when_launch_waits serve_forever 6789 true
           sample_run (st_sample true) Hd Hp).
Defined.

(** C6 fails as stated: two [launch()] in a row leave two workers Running
    at once. *)
Lemma two_launches_two_active_workers :
  perform_all serve_forever 6789 true [Launch; Launch] initial
    = Some st_relaunched
  /\ perform_all serve_forever 6789 false [Launch; Launch] initial
     = Some st_relaunched
  /\ state_of <$> heap st_relaunched = [Running; Running]
  /\ ~ at_most_one_active st_relaunched.
Proof.
  split; [reflexivity|]. split; [reflexivity|]. split; [reflexivity|].
  intros H.
  specialize (H 0 1 (launched_worker serve_forever 6789)
                (launched_worker serve_forever 6789)
                eq_refl eq_refl eq_refl eq_refl).
  discriminate H.
Qed.

(** ** The abort inside the traced code *)

(** C7, as the code has it.  The abort is the exception [SystemExit] raised
    by [localtrace] at a traced line.  The innermost enclosing handler whose
    class covers [SystemExit] intercepts it: the code goes on in that
    handler, the trace function of the thread is unset and no later line is
    checked.  Without such a handler the exception leaves [run] and the
    worker ends there; handlers whose class does not cover [SystemExit],
    [except Exception] among them, are passed. *)
Theorem abort_stops_unless_handled (w : ThreadWithTrace.t) (i : instr) :
  ThreadWithTrace.killed w = true ->
  traced_line w = true ->
  ThreadWithTrace.next_instr w = Some i ->
  ThreadWithTrace.dispatch w (event i) = Raise SystemExit
  /\ match ThreadWithTrace.find_handler SystemExit (handlers i) with
     | Some h =>
         ThreadWithTrace.status (ThreadWithTrace.step w) = Live
         /\ ThreadWithTrace.pc (ThreadWithTrace.step w) = resume h
         /\ ThreadWithTrace.tracefunc (ThreadWithTrace.step w) = None
         /\ forall n,
              traced_line (ThreadWithTrace.steps n (ThreadWithTrace.step w))
              = false
     | None =>
         ThreadWithTrace.status (ThreadWithTrace.step w) = Exited SystemExit
         /\ state_of (ThreadWithTrace.step w) = Stopped
     end
  /\ (Forall (fun h => catches h = Exception \/ catches h = RuntimeError)
        (handlers i) ->
      ThreadWithTrace.status (ThreadWithTrace.step w) = Exited SystemExit).
Proof.
  intros Hk Ht Hi.
  pose proof (step_at_traced_line w i Hk Ht Hi) as Hstep.
  destruct (traced_line_inv w Ht) as (_ & i' & Hi' & _ & Hd).
  rewrite Hi in Hi'. injection Hi' as <-.
  destruct (propagate_exited w SystemExit) as (Hpe & _).
  split; [exact (Hd Hk)|]. split.
  - destruct (ThreadWithTrace.find_handler SystemExit (handlers i)) as [h|];
      rewrite Hstep; simpl.
    + repeat split. intros n. apply quiet_not_traced, quiet_steps.
      right. reflexivity.
    + split; [exact Hpe|]. unfold state_of. now rewrite Hpe.
  - intros Hall. rewrite Hstep, find_handler_none; [exact Hpe|].
    eapply Forall_impl; [exact Hall|].
    intros h [-> | ->]; reflexivity.
Qed.

Lemma abort_stops_unless_handled_witness :
  ThreadWithTrace.killed
    (ThreadWithTrace.kill
       (ThreadWithTrace.step (launched_worker serve_forever 6789))) = true
  /\ traced_line
       (ThreadWithTrace.kill
          (ThreadWithTrace.step (launched_worker serve_forever 6789))) = true
  /\ ThreadWithTrace.status
       (ThreadWithTrace.step
          (ThreadWithTrace.kill
             (ThreadWithTrace.step (launched_worker serve_forever 6789))))
     = Exited SystemExit.
Proof.
  split; [reflexivity|]. split; [reflexivity|].
  apply (abort_stops_unless_handled
           (ThreadWithTrace.kill
              (ThreadWithTrace.step (launched_worker serve_forever 6789)))
           {| event := "line"; handlers := [] |}
           eq_refl eq_refl eq_refl).
  constructor.
Defined.

(** C7 fails as stated: in the loop with the [except BaseException] clause
    the clause intercepts the abort; the worker goes on in the clause with
    tracing switched off, is alive after any number of steps, and [kill()]
    is still waiting after a thousand of them. *)
Lemma catch_all_clause_intercepts_abort :
  ThreadWithTrace.killed catching_worker = true
  /\ traced_line catching_worker = true
  /\ ThreadWithTrace.status (ThreadWithTrace.step catching_worker) = Live
  /\ ThreadWithTrace.pc (ThreadWithTrace.step catching_worker) = 2
  /\ ThreadWithTrace.tracefunc (ThreadWithTrace.step catching_worker) = None
  /\ (forall n,
        ThreadWithTrace.status (ThreadWithTrace.steps n catching_worker) = Live)
  /\ kill true 1000 (tick 0 st_catching) = None
  /\ kill false 1000 (tick 0 st_catching) = None.
Proof.
  do 5 (split; [reflexivity|]). split; [|split].
  - intros [|n]; [reflexivity|]. simpl.
    apply catch_all_loop_goes_on; try reflexivity. now eexists.
  - vm_compute. reflexivity.
  - vm_compute. reflexivity.
Qed.

(** ** A stop request before [start] *)

(** C10. [ThreadWithTrace.kill] on a worker that was not started raises
    nothing and sets the flag; [start] then succeeds and leaves the flag
    set.  The first traced ['line'] event the thread reaches is the line
    [try:] of [threading.Thread.run], right after the call of [run]:
    [localtrace] raises [SystemExit] there, no handler encloses that line,
    and the worker has ended by [SystemExit] from its second step on,
    whatever the target, which is never entered. *)
Theorem kill_before_start_is_honoured
    (tgt : callable) (kw : Config) (dmn : bool) (n : nat) :
  state_of (ThreadWithTrace.init tgt kw dmn) = NotStarted
  /\ ThreadWithTrace.killed
       (ThreadWithTrace.kill (ThreadWithTrace.init tgt kw dmn)) = true
  /\ (started_after_kill tgt kw dmn).2 = Return tt
  /\ ThreadWithTrace.killed (started_after_kill tgt kw dmn).1 = true
  /\ state_of (started_after_kill tgt kw dmn).1 = StopRequested
  /\ traced_line (started_after_kill tgt kw dmn).1 = false
  /\ traced_line (ThreadWithTrace.step (started_after_kill tgt kw dmn).1)
     = true
  /\ ThreadWithTrace.next_instr
       (ThreadWithTrace.step (started_after_kill tgt kw dmn).1)
     = Some own_line
  /\ ThreadWithTrace.dispatch
       (ThreadWithTrace.step (started_after_kill tgt kw dmn).1) "line"
     = Raise SystemExit
  /\ ThreadWithTrace.status
       (ThreadWithTrace.steps (2 + n) (started_after_kill tgt kw dmn).1)
     = Exited SystemExit
  /\ state_of
       (ThreadWithTrace.steps (2 + n) (started_after_kill tgt kw dmn).1)
     = Stopped
  /\ ThreadWithTrace.stage_of
       (ThreadWithTrace.steps (2 + n) (started_after_kill tgt kw dmn).1)
     = AtTry
  /\ ThreadWithTrace.pc
       (ThreadWithTrace.steps (2 + n) (started_after_kill tgt kw dmn).1)
     = 0.
Proof.
  do 5 (split; [reflexivity|]).
  destruct (started_killed_steps (started_after_kill tgt kw dmn).1 n
              eq_refl eq_refl eq_refl eq_refl)
    as (H0 & H1 & H2 & H3 & H4 & H5 & H6 & _).
  repeat split; try assumption.
  unfold state_of. now rewrite H4.
Qed.

(** ** The traced code while the flag is unset *)

Section Undisturbed.
Import ThreadWithTrace.

Lemma finish_status (w : t) (fr : list (option tracefn))
    (pending : option exn_class) :
  status (finish w fr pending)
  = match pending with None => Returned | Some e => Exited e end.
Proof.
  unfold finish.
  destruct (dispatch_not_line
              (with_ctx w Live (stage_of w) (tracefunc w) fr (pc w)) "return")
    as (fr' & ->); [discriminate|].
  now destruct pending.
Qed.

Lemma step_unkilled (w : t) (tgt : callable) (kw : Config) (i : instr) :
  killed w = false -> status w = Live -> stage_of w = InTarget ->
  target w = Some tgt -> kwargs w = Some kw ->
  tgt kw (pc w) = Emits i ->
  exists fr, step w = with_ctx w Live InTarget (tracefunc w) fr (S (pc w)).
Proof.
  intros Hk Hs Hg Ht Hkw Hi.
  assert (Hf : fetch w = Emits i) by (unfold fetch; now rewrite Ht, Hkw).
  destruct (dispatch_unkilled w (event i) Hk) as (fr & Hd).
  exists fr. unfold step, next_instr. rewrite Hs, Hg, Hf, Hd.
  unfold proceed. now rewrite Hg, Hf.
Qed.

Lemma step_unkilled_end (w : t) (tgt : callable) (kw : Config) :
  killed w = false -> status w = Live -> stage_of w = InTarget ->
  target w = Some tgt -> kwargs w = Some kw ->
  (tgt kw (pc w) = Returns -> status (step w) = Returned)
  /\ (forall e, tgt kw (pc w) = Raises e -> status (step w) = Exited e).
Proof.
  intros Hk Hs Hg Ht Hkw.
  destruct (dispatch_unkilled w "line" Hk) as (fr & Hd).
  split; [intros Hp | intros e Hp];
    (assert (Hf : fetch w = tgt kw (pc w))
       by (unfold fetch; now rewrite Ht, Hkw));
    rewrite Hp in Hf;
    unfold step, next_instr; rewrite Hs, Hg, Hf; simpl; rewrite Hd;
    unfold proceed; rewrite Hg, Hf; apply finish_status.
Qed.

End Undisturbed.

(** X2. While the flag is unset the trace functions let the target run
    undisturbed: as long as the target has a next instruction, each step
    passes its event, moves the position on by one and leaves the trace
    function of the thread installed; where the target returns, the thread
    ends by that return, and where an exception of the target's own leaves
    it, the thread ends by that exception. *)
Theorem unset_flag_runs_undisturbed
    (w : ThreadWithTrace.t) (tgt : callable) (kw : Config) (n : nat) :
  ThreadWithTrace.killed w = false ->
  ThreadWithTrace.status w = Live ->
  ThreadWithTrace.stage_of w = InTarget ->
  ThreadWithTrace.target w = Some tgt ->
  ThreadWithTrace.kwargs w = Some kw ->
  (forall j, j < n -> exists i, tgt kw (ThreadWithTrace.pc w + j) = Emits i) ->
  ThreadWithTrace.status (ThreadWithTrace.steps n w) = Live
  /\ ThreadWithTrace.pc (ThreadWithTrace.steps n w) = ThreadWithTrace.pc w + n
  /\ ThreadWithTrace.tracefunc (ThreadWithTrace.steps n w)
     = ThreadWithTrace.tracefunc w
  /\ ThreadWithTrace.killed (ThreadWithTrace.steps n w) = false
  /\ (tgt kw (ThreadWithTrace.pc w + n) = Returns ->
      ThreadWithTrace.status (ThreadWithTrace.steps (S n) w) = Returned)
  /\ (forall e, tgt kw (ThreadWithTrace.pc w + n) = Raises e ->
      ThreadWithTrace.status (ThreadWithTrace.steps (S n) w) = Exited e).
Proof.
  revert w. induction n as [|n IH]; intros w Hk Hs Hg Ht Hkw Hev.
  - rewrite Nat.add_0_r. do 4 (split; [auto|]).
    exact (step_unkilled_end w tgt kw Hk Hs Hg Ht Hkw).
  - destruct (Hev 0 ltac:(lia)) as (i & Hi). rewrite Nat.add_0_r in Hi.
    destruct (step_unkilled w tgt kw i Hk Hs Hg Ht Hkw Hi) as (fr & Hstep).
    change (ThreadWithTrace.steps (S (S n)) w)
      with (ThreadWithTrace.steps (S n) (ThreadWithTrace.step w)).
    change (ThreadWithTrace.steps (S n) w)
      with (ThreadWithTrace.steps n (ThreadWithTrace.step w)).
    rewrite Hstep.
    destruct (IH (ThreadWithTrace.with_ctx w Live InTarget
                    (ThreadWithTrace.tracefunc w) fr
                    (S (ThreadWithTrace.pc w))) Hk eq_refl eq_refl Ht Hkw)
      as (H1 & H2 & H3 & H4 & H5 & H6).
    + intros j Hj. cbn [ThreadWithTrace.with_ctx ThreadWithTrace.pc].
      rewrite Nat.add_succ_comm. apply Hev. lia.
    + cbn [ThreadWithTrace.with_ctx ThreadWithTrace.pc
           ThreadWithTrace.tracefunc] in H2, H3, H5, H6.
      rewrite Nat.add_succ_comm in H2, H5.
      repeat split; [exact H1 | exact H2 | exact H3 | exact H4 | exact H5 |].
      intros e He. apply H6. now rewrite Nat.add_succ_comm.
Qed.

Lemma unset_flag_runs_undisturbed_witness :
  ThreadWithTrace.status
    (ThreadWithTrace.steps 5
       (ThreadWithTrace.steps 4 (launched_worker serve_forever 6789))) = Live
  /\ ThreadWithTrace.pc
       (ThreadWithTrace.steps 5
          (ThreadWithTrace.steps 4 (launched_worker serve_forever 6789))) = 5
  /\ ThreadWithTrace.status
       (ThreadWithTrace.steps 5
          (ThreadWithTrace.steps 4 (launched_worker failing_target 6789)))
     = Exited KeyError.
Proof.
  destruct (unset_flag_runs_undisturbed
              (ThreadWithTrace.steps 4 (launched_worker serve_forever 6789))
              serve_forever
              {| port := 6789; host := "localhost"; debug := false |} 5
              eq_refl eq_refl eq_refl eq_refl eq_refl) as (H1 & H2 & _).
  { intros [|j] _; simpl; eauto. }
  split; [exact H1|]. split; [exact H2|].
  destruct (unset_flag_runs_undisturbed
              (ThreadWithTrace.steps 4 (launched_worker failing_target 6789))
              failing_target
              {| port := 6789; host := "localhost"; debug := false |} 4
              eq_refl eq_refl eq_refl eq_refl eq_refl) as (_ & _ & _ & _ & _ & H).
  { intros [|[|[|[|j]]]] Hj; simpl; eauto. lia. }
  exact (H KeyError eq_refl).
Defined.

(** X3. The moment at which the flag is set matters only relative to the
    traced ['line'] events: if the thread meets none in its next [n] steps,
    setting the flag before those steps or after them gives the same thread
    object. *)
Theorem stop_flag_takes_effect_at_traced_lines
    (w : ThreadWithTrace.t) (n : nat) :
  (forall j, j < n -> traced_line (ThreadWithTrace.steps j w) = false) ->
  ThreadWithTrace.steps n (ThreadWithTrace.kill w)
  = ThreadWithTrace.kill (ThreadWithTrace.steps n w).
Proof.
  revert w. induction n as [|n IH]; intros w H; [reflexivity|].
  simpl. rewrite step_kill_commute by exact (H 0 ltac:(lia)).
  apply IH. intros j Hj. exact (H (S j) ltac:(lia)).
Qed.

Lemma stop_flag_takes_effect_at_traced_lines_witness :
  ThreadWithTrace.steps 1
    (ThreadWithTrace.kill (launched_worker serve_forever 6789))
  = ThreadWithTrace.kill
      (ThreadWithTrace.steps 1 (launched_worker serve_forever 6789)).
Proof.
  apply (stop_flag_takes_effect_at_traced_lines
           (launched_worker serve_forever 6789) 1).
  intros [|j] Hj; [reflexivity | lia].
Defined.

(** ** The attribute [run] *)





(** ** Whole runs of the module *)

Section Runs.
Import ThreadWithTrace.

Lemma evolves_refl (w : t) : evolves w w.
Proof. unfold evolves. auto 10. Qed.

Lemma evolves_trans (a b c : t) : evolves a b -> evolves b c -> evolves a c.
Proof.
  unfold evolves.
  intros (H1 & H2 & Hd & Ht & Hk) (H3 & H4 & Hd' & Ht' & Hk').
  repeat split; [lia | auto | congruence | |].
  - destruct Ht' as [->|]; auto.
  - destruct Hk' as [->|]; auto.
Qed.

Lemma evolves_kill (w : t) : evolves w (kill w).
Proof.
  unfold evolves, state_of. simpl.
  repeat split; auto. destruct (status w), (killed w); simpl; lia.
Qed.

Lemma evolves_step (w : t) : evolves w (step w).
Proof.
  destruct (step_frame w) as (Hk & Hd).
  destruct (step_attrs w) as (Ht & Hkw & _).
  unfold evolves. rewrite Hk, Hd. repeat split; auto.
  unfold state_of. rewrite Hk.
  destruct (status w) eqn:Hs;
    try (rewrite step_not_live by congruence; rewrite Hs; simpl; lia).
  assert (H : started (step w) = true)
    by (apply step_started; unfold started; now rewrite Hs).
  unfold started in H.
  destruct (status (step w)), (killed w); simpl; try lia; discriminate.
Qed.

Lemma evolves_steps (n : nat) (w : t) : evolves w (steps n w).
Proof.
  revert w. induction n as [|n IH]; intros w; [apply evolves_refl|].
  simpl. eapply evolves_trans; [apply evolves_step | apply IH].
Qed.

Lemma built_by_launch_steps (app_run : callable) (SERVER_PORT : Z)
    (n : nat) (w : t) :
  built_by_launch app_run SERVER_PORT w ->
  built_by_launch app_run SERVER_PORT (steps n w).
Proof.
  intros (Hs & Hd & Ha). repeat split.
  - now apply steps_started.
  - destruct (steps_frame n w) as (_ & ->). exact Hd.
  - destruct (steps_attrs n w) as (_ & _ & Hl).
    apply is_alive_status in H. destruct (Hl H) as (-> & _).
    apply Ha, is_alive_status. exact (live_before n w H).
  - destruct (steps_attrs n w) as (_ & _ & Hl).
    apply is_alive_status in H. destruct (Hl H) as (_ & ->).
    apply Ha, is_alive_status. exact (live_before n w H).
Qed.

End Runs.

Section RunInvariants.
Variable app_run : callable.
Variable SERVER_PORT : Z.
Variable thread_has_isAlive : bool.

Lemma perform_evolves (a : action) (st st' : state) (i : nat)
    (w : ThreadWithTrace.t) :
  perform app_run SERVER_PORT thread_has_isAlive a st = Some st' ->
  heap st !! i = Some w ->
  exists w', heap st' !! i = Some w' /\ evolves w w'.
Proof.
  intros Hp Hi. destruct a as [|fuel|r]; cbn [perform] in Hp.
  - injection Hp as <-. simpl. exists w.
    split; [|apply evolves_refl].
    rewrite lookup_app_l; [exact Hi | now apply lookup_lt_Some in Hi].
  - destruct (kill thread_has_isAlive fuel st) as [[st1 res]|] eqn:Hk;
      [|discriminate].
    injection Hp as <-. destruct (thread st) as [r|] eqn:Ht.
    + destruct (kill_effect _ _ _ _ _ _ Ht Hk) as (_ & w0 & m & Hw0 & -> & _).
      destruct (decide (r = i)) as [->|Hne].
      * rewrite Hi in Hw0. injection Hw0 as <-.
        eexists. split.
        -- apply list_lookup_insert_eq. now apply lookup_lt_Some in Hi.
        -- eapply evolves_trans; [apply evolves_kill | apply evolves_steps].
      * exists w. split; [|apply evolves_refl].
        now rewrite list_lookup_insert_ne.
    + rewrite (kill_no_thread _ fuel st Ht) in Hk. injection Hk as <- <-.
      exists w. split; [exact Hi | apply evolves_refl].
  - injection Hp as <-. unfold tick.
    destruct (heap st !! r) as [v|] eqn:Hv;
      [|exists w; split; [exact Hi | apply evolves_refl]].
    simpl. destruct (decide (r = i)) as [->|Hne].
    + rewrite Hi in Hv. injection Hv as <-. eexists. split.
      * apply list_lookup_insert_eq. now apply lookup_lt_Some in Hi.
      * apply evolves_step.
    + exists w. split; [|apply evolves_refl].
      now rewrite list_lookup_insert_ne.
Qed.

Lemma perform_all_evolves (acts : list action) (st st' : state) (i : nat)
    (w : ThreadWithTrace.t) :
  perform_all app_run SERVER_PORT thread_has_isAlive acts st = Some st' ->
  heap st !! i = Some w ->
  exists w', heap st' !! i = Some w' /\ evolves w w'.
Proof.
  revert st w. induction acts as [|a rest IH]; intros st w Hp Hi.
  - injection Hp as <-. exists w. split; [exact Hi | apply evolves_refl].
  - simpl in Hp.
    destruct (perform app_run SERVER_PORT thread_has_isAlive a st)
      as [st1|] eqn:E; [|discriminate]. simpl in Hp.
    destruct (perform_evolves a st st1 i w E Hi) as (w1 & Hw1 & He1).
    destruct (IH st1 w1 Hp Hw1) as (w' & Hw' & He').
    exists w'. split; [exact Hw' | exact (evolves_trans _ _ _ He1 He')].
Qed.

Lemma state_ok_initial : state_ok app_run SERVER_PORT initial.
Proof. repeat split; constructor. Qed.

Lemma state_ok_perform (a : action) (st st' : state) :
  perform app_run SERVER_PORT thread_has_isAlive a st = Some st' ->
  state_ok app_run SERVER_PORT st -> state_ok app_run SERVER_PORT st'.
Proof.
  intros Hp (Hn & Hw & Ho). destruct a as [|fuel|r]; cbn [perform] in Hp.
  - injection Hp as <-. simpl. repeat split.
    + unfold newest_in_slot. simpl. rewrite length_app. simpl. lia.
    + apply Forall_app. split; [exact Hw|]. repeat constructor.
    + exact Ho.
  - destruct (kill thread_has_isAlive fuel st) as [[st1 res]|] eqn:Hk;
      [|discriminate].
    injection Hp as <-. destruct (thread st) as [r|] eqn:Ht.
    + destruct (kill_effect _ _ _ _ _ _ Ht Hk)
        as (Ht1 & w0 & m & Hw0 & Hh & Hout).
      repeat split.
      * unfold newest_in_slot in *. rewrite Ht1, Hh, length_insert.
        now rewrite Ht in Hn.
      * rewrite Hh. apply Forall_insert; [exact Hw|].
        apply built_by_launch_steps.
        exact (Forall_lookup_1 _ _ _ _ Hw Hw0).
      * destruct Hout as [-> | ->]; [exact Ho|].
        apply Forall_app. split; [exact Ho | now repeat constructor].
    + rewrite (kill_no_thread _ fuel st Ht) in Hk. injection Hk as <- <-.
      repeat split; assumption.
  - injection Hp as <-. unfold tick.
    destruct (heap st !! r) as [v|] eqn:Hv; [|repeat split; assumption].
    repeat split; simpl.
    + unfold newest_in_slot in *. simpl.
      destruct (thread st); [now rewrite length_insert|].
      rewrite Hn in Hv. discriminate.
    + apply Forall_insert; [exact Hw|].
      apply (built_by_launch_steps app_run SERVER_PORT 1 v).
      exact (Forall_lookup_1 _ _ _ _ Hw Hv).
    + exact Ho.
Qed.

Lemma state_ok_run (acts : list action) (st st' : state) :
  perform_all app_run SERVER_PORT thread_has_isAlive acts st = Some st' ->
  state_ok app_run SERVER_PORT st -> state_ok app_run SERVER_PORT st'.
Proof.
  revert st. induction acts as [|a rest IH]; intros st Hp Hok.
  - now injection Hp as <-.
  - simpl in Hp.
    destruct (perform app_run SERVER_PORT thread_has_isAlive a st)
      as [st1|] eqn:E; [|discriminate].
    exact (IH st1 Hp (state_ok_perform a st st1 E Hok)).
Qed.

(** A thread object that is not the one in the slot keeps its flag, and is
    not the one in the slot afterwards either. *)
Lemma outside_slot_perform (a : action) (st st' : state) (i : nat)
    (w : ThreadWithTrace.t) :
  perform app_run SERVER_PORT thread_has_isAlive a st = Some st' ->
  newest_in_slot st -> heap st !! i = Some w -> thread st <> Some i ->
  thread st' <> Some i
  /\ exists w', heap st' !! i = Some w'
       /\ ThreadWithTrace.killed w' = ThreadWithTrace.killed w.
Proof.
  intros Hp Hn Hi Hne. destruct a as [|fuel|r]; cbn [perform] in Hp.
  - injection Hp as <-. simpl.
    pose proof (lookup_lt_Some _ _ _ Hi) as Hlt. split.
    + intros [= E]. lia.
    + exists w. split; [|reflexivity]. now rewrite lookup_app_l.
  - destruct (kill thread_has_isAlive fuel st) as [[st1 res]|] eqn:Hk;
      [|discriminate].
    injection Hp as <-. destruct (thread st) as [r|] eqn:Ht.
    + destruct (kill_effect _ _ _ _ _ _ Ht Hk) as (-> & w0 & m & _ & -> & _).
      split; [exact Hne|]. exists w. split; [|reflexivity].
      rewrite list_lookup_insert_ne; [exact Hi | congruence].
    + rewrite (kill_no_thread _ fuel st Ht) in Hk. injection Hk as <- <-.
      rewrite Ht. split; [discriminate | eauto].
  - injection Hp as <-. unfold tick.
    destruct (heap st !! r) as [v|] eqn:Hv; [|eauto]. simpl.
    split; [exact Hne|]. destruct (decide (r = i)) as [->|Hri].
    + rewrite Hi in Hv. injection Hv as <-. eexists. split.
      * apply list_lookup_insert_eq. now apply lookup_lt_Some in Hi.
      * apply step_frame.
    + exists w. split; [|reflexivity]. now rewrite list_lookup_insert_ne.
Qed.

Lemma outside_slot_run (acts : list action) (st st' : state) (i : nat)
    (w : ThreadWithTrace.t) :
  perform_all app_run SERVER_PORT thread_has_isAlive acts st = Some st' ->
  state_ok app_run SERVER_PORT st ->
  heap st !! i = Some w -> thread st <> Some i ->
  thread st' <> Some i
  /\ exists w', heap st' !! i = Some w'
       /\ ThreadWithTrace.killed w' = ThreadWithTrace.killed w.
Proof.
  revert st w. induction acts as [|a rest IH]; intros st w Hp Hok Hi Hne.
  - injection Hp as <-. eauto.
  - simpl in Hp.
    destruct (perform app_run SERVER_PORT thread_has_isAlive a st)
      as [st1|] eqn:E; [|discriminate]. simpl in Hp.
    destruct (outside_slot_perform a st st1 i w E (proj1 Hok) Hi Hne)
      as (Hne1 & w1 & Hw1 & Hk1).
    destruct (IH st1 w1 Hp (state_ok_perform a st st1 E Hok) Hw1 Hne1)
      as (Hne' & w' & Hw' & Hk').
    split; [exact Hne'|]. exists w'. split; [exact Hw' | congruence].
Qed.

End RunInvariants.

(** X5. Whatever calls of [launch] and [kill] and steps of the threads
    follow, a thread object stays in place and never goes back: its state
    moves along NotStarted, Running, StopRequested, Stopped only forwards, a
    stop flag that is set stays set, its daemon flag does not change, and
    its target and keyword arguments are those it had unless [run] has
    deleted them in the meantime. *)
Theorem workers_never_go_back
    (app_run : callable) (SERVER_PORT : Z) (thread_has_isAlive : bool)
    (acts : list action) (st st' : state) (i : nat)
    (w : ThreadWithTrace.t) :
  perform_all app_run SERVER_PORT thread_has_isAlive acts st = Some st' ->
  heap st !! i = Some w ->
  exists w',
    heap st' !! i = Some w'
    /\ rank (state_of w) <= rank (state_of w')
    /\ (ThreadWithTrace.killed w = true -> ThreadWithTrace.killed w' = true)
    /\ ThreadWithTrace.daemon w' = ThreadWithTrace.daemon w
    /\ (ThreadWithTrace.target w' = ThreadWithTrace.target w
        \/ ThreadWithTrace.target w' = None)
    /\ (ThreadWithTrace.kwargs w' = ThreadWithTrace.kwargs w
        \/ ThreadWithTrace.kwargs w' = None).
Proof.
  intros Hp Hi.
  destruct (perform_all_evolves app_run SERVER_PORT thread_has_isAlive acts
              st st' i w Hp Hi) as (w' & Hw' & He).
  exists w'. split; [exact Hw' | exact He].
Qed.

Lemma workers_never_go_back_witness :
  perform_all serve_forever 6789 true [Tick 0; Kill 5] st_launched
    = Some (st_killed true)
  /\ exists w', heap (st_killed true) !! 0 = Some w'
       /\ rank (state_of (launched_worker serve_forever 6789))
          <= rank (state_of w').
Proof.
  assert (Hp : perform_all serve_forever 6789 true [Tick 0; Kill 5]
                 st_launched = Some (st_killed true))
    by (vm_compute; reflexivity).
  split; [exact Hp|].
  destruct (workers_never_go_back serve_forever 6789 true [Tick 0; Kill 5]
              st_launched (st_killed true) 0
              (launched_worker serve_forever 6789)
              Hp eq_refl) as (w' & Hw' & Hr & _).
  exists w'. split; [exact Hw' | exact Hr].
Defined.



(** X7. In a reachable module state [thread.join()] inside [kill()] never
    raises: it is never called on a thread that was not started.  Whenever
    [kill()] comes back with a worker in the slot, that worker is Stopped
    with its flag set, so the test of [isAlive], where the method exists,
    never fails: the message is printed and [None] returned; where the
    method does not exist the call ends by [AttributeError] and nothing is
    printed.  With no worker in the slot [kill()] returns [None] and the
    module state is unchanged. *)
Theorem kill_in_reachable_state
    (app_run : callable) (SERVER_PORT : Z) (thread_has_isAlive : bool)
    (acts : list action) (fuel : nat) (st st' : state)
    (res : pyresult pyval) :
  perform_all app_run SERVER_PORT thread_has_isAlive acts initial = Some st ->
  kill thread_has_isAlive fuel st = Some (st', res) ->
  res <> Raise RuntimeError
  /\ thread st' = thread st
  /\ (thread st = None -> st' = st /\ res = Return PyNone)
  /\ (forall r, thread st = Some r ->
        res = (if thread_has_isAlive then Return PyNone
               else Raise AttributeError)
        /\ stdout st'
           = (if thread_has_isAlive
              then stdout st ++ ["Flask server is terminated"]
              else stdout st)%list
        /\ exists w', heap st' !! r = Some w'
             /\ state_of w' = Stopped
             /\ ThreadWithTrace.killed w' = true).
Proof.
  intros Hp Hk.
  destruct (state_ok_run app_run SERVER_PORT thread_has_isAlive acts initial
              st Hp (state_ok_initial app_run SERVER_PORT)) as (Hn & Hw & _).
  unfold newest_in_slot in Hn. destruct (thread st) as [r|] eqn:Ht.
  - assert (Hr : r < length (heap st)) by lia.
    destruct (lookup_lt_is_Some_2 _ _ Hr) as (w & Hwr).
    pose proof (Forall_lookup_1 _ _ _ _ Hw Hwr) as (Hs & _).
    pose proof Hk as Hk0.
    unfold kill in Hk. rewrite Ht, Hwr in Hk. simpl in Hk.
    destruct (ThreadWithTrace.join fuel (ThreadWithTrace.kill w))
      as [[w' r']|] eqn:Hj; [|discriminate].
    destruct (join_inv fuel (ThreadWithTrace.kill w) w' r' Hs Hj)
      as (-> & Hd & m & Hm).
    rewrite (kill_joined thread_has_isAlive fuel r w w' st Ht Hwr Hj Hd)
      in Hk0.
    injection Hk0 as <- <-. simpl.
    split; [destruct thread_has_isAlive; discriminate|].
    split; [reflexivity|]. split; [discriminate|].
    intros r0 [= <-]. split; [reflexivity|]. split; [reflexivity|].
    exists w'. repeat split.
    + now apply list_lookup_insert_eq.
    + apply not_alive_stopped; [|exact Hd]. rewrite Hm.
      now apply steps_started.
    + rewrite Hm. apply steps_frame.
  - rewrite (kill_no_thread _ fuel st Ht) in Hk. injection Hk as <- <-.
    split; [discriminate|]. split; [exact Ht|]. split; [auto|].
    intros r Hr. congruence.
Qed.

Lemma kill_in_reachable_state_witness :
  perform_all serve_forever 6789 true double_launch initial
    = Some st_relaunched
  /\ (exists st', kill true 2 st_relaunched = Some (st', Return PyNone))
  /\ (exists st', kill false 2 st_relaunched
                  = Some (st', Raise AttributeError))
  /\ forall st' res, kill true 2 st_relaunched = Some (st', res) ->
       res <> Raise RuntimeError.
Proof.
  assert (Hp : perform_all serve_forever 6789 true double_launch initial
               = Some st_relaunched) by reflexivity.
  split; [exact Hp|]. split; [eexists; vm_compute; reflexivity|].
  split; [eexists; vm_compute; reflexivity|].
  intros st' res Hk.
  exact (proj1 (kill_in_reachable_state serve_forever 6789 true
                  double_launch 2 st_relaunched st' res Hp Hk)).
Defined.

(** X8. A worker that a later [launch()] has replaced in the slot is out of
    reach of [kill()]: whatever calls and steps follow, it is never the
    worker of the slot again and its stop flag stays as it was, so that a
    replaced worker whose flag was unset is never asked to stop. *)
Theorem replaced_worker_is_never_stopped
    (app_run : callable) (SERVER_PORT : Z) (thread_has_isAlive : bool)
    (before after : list action)
    (st st' : state) (i : nat) (w : ThreadWithTrace.t) :
  perform_all app_run SERVER_PORT thread_has_isAlive before initial
    = Some st ->
  heap st !! i = Some w ->
  thread st <> Some i ->
  perform_all app_run SERVER_PORT thread_has_isAlive after st = Some st' ->
  thread st' <> Some i
  /\ exists w', heap st' !! i = Some w'
       /\ ThreadWithTrace.killed w' = ThreadWithTrace.killed w.
Proof.
  intros Hb Hi Hne Ha.
  apply (outside_slot_run app_run SERVER_PORT thread_has_isAlive after st st'
           i w Ha); auto.
  exact (state_ok_run app_run SERVER_PORT thread_has_isAlive before initial
           st Hb (state_ok_initial app_run SERVER_PORT)).
Qed.

Lemma replaced_worker_is_never_stopped_witness :
  perform_all serve_forever 6789 true double_launch initial
    = Some st_relaunched
  /\ thread st_relaunched = Some 1
  /\ exists st',
       perform_all serve_forever 6789 true after_double_launch st_relaunched
       = Some st'
       /\ exists w', heap st' !! 0 = Some w'
            /\ ThreadWithTrace.killed w' = false.
Proof.
  split; [reflexivity|]. split; [reflexivity|].
  eexists. split; [vm_compute; reflexivity|].
  destruct (replaced_worker_is_never_stopped serve_forever 6789 true
              double_launch after_double_launch st_relaunched _ 0
              (launched_worker serve_forever 6789)
              eq_refl eq_refl ltac:(discriminate)
              ltac:(vm_compute; reflexivity)) as (_ & w' & Hw' & Hk).
  exists w'. split; [exact Hw' | exact Hk].
Defined.

(** ** How long [kill] waits *)

(** X9. With a started worker in the slot, [kill()] waits exactly as long as
    that worker is alive: the call is still waiting after [fuel] steps of
    the worker if and only if the worker, its flag set, is still alive after
    those steps.  There is no timeout and no other way out. *)
Theorem kill_waits_while_worker_is_alive
    (thread_has_isAlive : bool) (fuel r : nat) (st : state)
    (w : ThreadWithTrace.t) :
  thread st = Some r ->
  heap st !! r = Some w ->
  ThreadWithTrace.started w = true ->
  kill thread_has_isAlive fuel st = None
  <-> ThreadWithTrace.is_alive
        (ThreadWithTrace.steps fuel (ThreadWithTrace.kill w)) = true.
Proof.
  intros Ht Hw Hs. rewrite <- (join_waits fuel (ThreadWithTrace.kill w) Hs).
  unfold kill. rewrite Ht, Hw. simpl.
  destruct (ThreadWithTrace.join fuel (ThreadWithTrace.kill w))
    as [[w' [u|e]]|]; simpl; [| |tauto].
  - destruct thread_has_isAlive;
      [destruct (negb (ThreadWithTrace.is_alive w'))|]; split; discriminate.
  - split; discriminate.
Qed.

Lemma kill_waits_while_worker_is_alive_witness :
  thread st_launched = Some 0
  /\ kill true 1 st_launched = None
  /\ kill false 1 st_launched = None.
Proof.
  split; [reflexivity|]. split.
  - apply (kill_waits_while_worker_is_alive true 1 0 st_launched
             (launched_worker serve_forever 6789) eq_refl eq_refl eq_refl).
    reflexivity.
  - apply (kill_waits_while_worker_is_alive false 1 0 st_launched
             (launched_worker serve_forever 6789) eq_refl eq_refl eq_refl).
    reflexivity.
Defined.

(** X10. [kill()] stops waiting as soon as the worker of the slot comes to a
    traced ['line'] event that no handler of the traced code covers: if the
    worker, its flag set, is at such an event after [n] steps, it ends by
    [SystemExit] at the position of that event, and every call with at
    least [n + 1] steps to wait comes back: where [threading.Thread] has
    [isAlive] the message is printed and [None] returned, where it has not
    the call ends by [AttributeError]. *)
Theorem kill_returns_at_first_open_traced_line
    (thread_has_isAlive : bool) (n r : nat) (st : state)
    (w : ThreadWithTrace.t) (i : instr) :
  thread st = Some r ->
  heap st !! r = Some w ->
  ThreadWithTrace.started w = true ->
  traced_line (ThreadWithTrace.steps n (ThreadWithTrace.kill w)) = true ->
  ThreadWithTrace.next_instr
    (ThreadWithTrace.steps n (ThreadWithTrace.kill w)) = Some i ->
  ThreadWithTrace.find_handler SystemExit (handlers i) = None ->
  exists w',
    ThreadWithTrace.status w' = Exited SystemExit
    /\ ThreadWithTrace.pc w'
       = ThreadWithTrace.pc (ThreadWithTrace.steps n (ThreadWithTrace.kill w))
    /\ forall fuel, S n <= fuel ->
         kill thread_has_isAlive fuel st =
           Some ({| thread := Some r; heap := <[r := w']> (heap st);
                    stdout := if thread_has_isAlive
                              then stdout st ++ ["Flask server is terminated"]
                              else stdout st |},
                 if thread_has_isAlive then Return PyNone
                 else Raise AttributeError).
Proof.
  intros Ht Hw Hs Hl Hi Hh.
  set (k := ThreadWithTrace.kill w) in *.
  assert (Hk : ThreadWithTrace.killed (ThreadWithTrace.steps n k) = true)
    by (destruct (steps_frame n k) as (-> & _); reflexivity).
  pose proof (step_at_traced_line _ i Hk Hl Hi) as Hstep.
  rewrite Hh, <- steps_S in Hstep.
  destruct (propagate_exited (ThreadWithTrace.steps n k) SystemExit)
    as (Hpe & _ & Hpc & _).
  assert (Hlive : ThreadWithTrace.status (ThreadWithTrace.steps n k) = Live)
    by (destruct (traced_line_inv _ Hl) as (H & _); exact H).
  assert (Hdead : ThreadWithTrace.is_alive (ThreadWithTrace.steps (S n) k)
                  = false)
    by (apply not_alive_status; rewrite Hstep, Hpe; discriminate).
  destruct (join_returns (S n) k Hs Hdead) as (m & Hm & Hd & Hj).
  assert (m = S n) as ->.
  { destruct (decide (m <= n)) as [Hle|]; [|lia].
    apply not_alive_status in Hd.
    destruct Hd. exact (live_between n m k Hle Hlive). }
  remember (ThreadWithTrace.steps (S n) k) as w' eqn:Ew'.
  exists w'. split; [now rewrite Hstep|]. split; [now rewrite Hstep|].
  intros fuel Hf.
  rewrite (kill_joined thread_has_isAlive fuel r w w' st Ht Hw (Hj fuel Hf) Hd).
  now destruct thread_has_isAlive.
Qed.

Lemma kill_returns_at_first_open_traced_line_witness :
  thread st_launched = Some 0
  /\ traced_line
       (ThreadWithTrace.steps 1
          (ThreadWithTrace.kill (launched_worker serve_forever 6789))) = true
  /\ (exists w', ThreadWithTrace.status w' = Exited SystemExit
       /\ kill true 2 st_launched =
            Some ({| thread := Some 0; heap := <[0 := w']> (heap st_launched);
                     stdout := stdout st_launched
                               ++ ["Flask server is terminated"] |},
                  Return PyNone))
  /\ (exists w', ThreadWithTrace.status w' = Exited SystemExit
       /\ kill false 2 st_launched =
            Some ({| thread := Some 0; heap := <[0 := w']> (heap st_launched);
                     stdout := stdout st_launched |},
                  Raise AttributeError)).
Proof.
  split; [reflexivity|]. split; [reflexivity|]. split.
  - destruct (kill_returns_at_first_open_traced_line true 1 0 st_launched
                (launched_worker serve_forever 6789)
                {| event := "line"; handlers := [] |}
                eq_refl eq_refl eq_refl eq_refl eq_refl eq_refl)
      as (w' & Hs & _ & Hk).
    exists w'. split; [exact Hs | exact (Hk 2 (le_n 2))].
  - destruct (kill_returns_at_first_open_traced_line false 1 0 st_launched
                (launched_worker serve_forever 6789)
                {| event := "line"; handlers := [] |}
                eq_refl eq_refl eq_refl eq_refl eq_refl eq_refl)
      as (w' & Hs & _ & Hk).
    exists w'. split; [exact Hs | exact (Hk 2 (le_n 2))].
Defined.

(** ** The route [/feature_sets] *)


Example feature_sets_sample :
  fs_id <$> body (feature_sets (fun o => o) sample_feature_sets) = ["1"].
Proof. vm_compute. reflexivity. Qed.
